(** * Shallow embedding of the Rule34Video scraper core (modules/utils.py,
      modules/video.py, modules/client.py) and proofs of its specification.

    Text is modelled in two ways.  [Duration] works on Python strings as
    sequences of Unicode code points (a [list N]), because the behaviour of
    [str.isdigit], [int] and the [\d] regex class differs on non-ASCII
    digits.  The other modules use [String.string] for the Python strings
    whose code points are all below U+0100 (Latin-1): each [ascii] is one
    code point, and [Text] gives Python's character classes, case mapping
    and stripping on that range.  URLs, quality labels and the page markup
    the code scans for are such strings. *)

From Stdlib Require Import ZArith NArith QArith List Bool Ascii String Lia DecimalString Sorted.
From Stdlib Require DecimalPos DecimalZ DecimalFacts.
Import ListNotations.

(** Python's outcome of a call that may raise [ValueError]. *)
Inductive PyResult (A : Type) : Type :=
| Ok (a : A)
| ValueError.
Arguments Ok {A} a.
Arguments ValueError {A}.

(** Sequencing: a [ValueError] raised by the first call propagates. *)
Definition py_bind {A B : Type} (r : PyResult A) (f : A -> PyResult B) : PyResult B :=
  match r with
  | Ok a => f a
  | ValueError => ValueError
  end.

(** Python 3.11 limits the conversions between [int] and decimal text to
    this many digits ([sys.get_int_max_str_digits()], 4300 by default):
    [int(s)] and [str(n)] raise [ValueError] beyond it. *)
Definition int_max_str_digits : nat := 4300.

(* ------------------------------------------------------------------ *)
(** ** utils.parse_duration over Unicode code points *)
Module Duration.
Open Scope N_scope.

Definition ustr := list N.

(** The decimal digits of Unicode 14.0, the character database of Python
    3.11 (category Nd: what [\d] matches, [str.isdecimal] accepts and
    [int] reads).  They come in runs of ten consecutive code points, from
    zero to nine; the list gives the code point of each run's zero. *)
Definition nd_zeros : list N :=
  [48; 1632; 1776; 1984; 2406; 2534; 2662; 2790; 2918; 3046; 3174; 3302;
   3430; 3558; 3664; 3792; 3872; 4160; 4240; 6112; 6160; 6470; 6608; 6784;
   6800; 6992; 7088; 7232; 7248; 42528; 43216; 43264; 43472; 43504; 43600;
   44016; 65296; 66720; 68912; 69734; 69872; 69942; 70096; 70384; 70736;
   70864; 71248; 71360; 71472; 71904; 72016; 72784; 73040; 73120; 92768;
   92864; 93008; 120782; 120792; 120802; 120812; 120822; 123200; 123632;
   125264; 130032].

(** The value of a decimal digit, [None] for any other character. *)
Definition decimal_value (c : N) : option N :=
  match find (fun z => (z <=? c) && (c <=? z + 9)) nd_zeros with
  | Some z => Some (c - z)
  | None => None
  end.

Definition is_decimal (c : N) : bool :=
  match decimal_value c with Some _ => true | None => false end.

(** The other characters of Unicode 14.0 with Numeric_Type=Digit, as
    ranges of code points: [str.isdigit] accepts them, [int] refuses them
    (superscripts and subscripts, circled, parenthesized and dingbat
    digits, Ethiopic, Khmer-symbol, Kharoshthi, Rumi, Brahmi and other
    digits). *)
Definition digit_only_ranges : list (N * N) :=
  [(178, 179); (185, 185); (4969, 4977); (6618, 6618); (8304, 8304);
   (8308, 8313); (8320, 8329); (9312, 9320); (9332, 9340); (9352, 9360);
   (9450, 9450); (9461, 9469); (9471, 9471); (10102, 10110);
   (10112, 10120); (10122, 10130); (68160, 68163); (69216, 69224);
   (69714, 69722); (127232, 127242)].

Definition is_digit_only (c : N) : bool :=
  existsb (fun r => (fst r <=? c) && (c <=? snd r)) digit_only_ranges.

(** [str.isdigit]: non-empty and every character a digit. *)
Definition isdigit (s : ustr) : bool :=
  match s with
  | [] => false
  | _ => forallb (fun c => is_decimal c || is_digit_only c) s
  end.

(** [str.isspace] for one character. *)
Definition is_space (c : N) : bool :=
  ((9 <=? c) && (c <=? 13)) || ((28 <=? c) && (c <=? 32))
  || (c =? 133) || (c =? 160) || (c =? 5760)
  || ((8192 <=? c) && (c <=? 8202))
  || (c =? 8232) || (c =? 8233) || (c =? 8239) || (c =? 8287)
  || (c =? 12288).

Fixpoint lstrip (s : ustr) : ustr :=
  match s with
  | c :: r => if is_space c then lstrip r else s
  | [] => []
  end.

(** [str.strip()]. *)
Definition strip (s : ustr) : ustr := rev (lstrip (rev (lstrip s))).

Fixpoint int_acc (acc : Z) (s : ustr) : PyResult Z :=
  match s with
  | [] => Ok acc
  | c :: r =>
      match decimal_value c with
      | Some v => int_acc (acc * 10 + Z.of_N v)%Z r
      | None => ValueError
      end
  end.

(** [int(s)] where [s] holds no sign, space or underscore (the only
    strings the parser passes it): Python's [int] refuses the empty
    string, a character that is not a decimal digit, and more than
    [int_max_str_digits] digits. *)
Definition int_of (s : ustr) : PyResult Z :=
  match s with
  | [] => ValueError
  | _ => if (int_max_str_digits <? List.length s)%nat then ValueError
         else int_acc 0%Z s
  end.

(** Greedy [\d+]/[\d*]: the maximal prefix of decimal digits. *)
Fixpoint span_digits (s : ustr) : ustr * ustr :=
  match s with
  | c :: r => if is_decimal c then let (d, t) := span_digits r in (c :: d, t)
              else ([], s)
  | [] => ([], [])
  end.

(** A literal letter under [re.IGNORECASE] (upper and lower case code
    points; [S] also matches the long s U+017F). *)
Definition ci_letter (upper : N) (c : N) : bool :=
  (c =? upper) || (c =? upper + 32) || ((upper =? 83) && (c =? 383)).

(** An optional group [(?:(\d+)X)?]: taken when a digit run is followed by
    the letter, otherwise matched empty. *)
Definition opt_group (letter : N) (s : ustr) : option ustr * ustr :=
  match span_digits s with
  | ([], _) => (None, s)
  | (d, c :: t) => if ci_letter letter c then (Some d, t) else (None, s)
  | (_, []) => (None, s)
  end.

(** [re.match(r'PT(?:(\d+)H)?(?:(\d+)M)?(?:(\d+)S)?', s, re.IGNORECASE)]:
    the three captures, or [None] when the string does not start with PT. *)
Definition iso_match (s : ustr)
  : option (option ustr * option ustr * option ustr) :=
  match s with
  | p :: t :: r =>
      if ci_letter 80 p && ci_letter 84 t then
        let (h, r1) := opt_group 72 r in
        let (m, r2) := opt_group 77 r1 in
        let (sec, _) := opt_group 83 r2 in
        Some (h, m, sec)
      else None
  | _ => None
  end.

(** [re.match(r'(\d+):(\d+)(?::(\d+))?', s)]. *)
Definition time_match (s : ustr) : option (ustr * ustr * option ustr) :=
  match span_digits s with
  | ([], _) => None
  | (d1, c :: r) =>
      if c =? 58 then
        match span_digits r with
        | ([], _) => None
        | (d2, c' :: r') =>
            if c' =? 58 then
              match span_digits r' with
              | ([], _) => Some (d1, d2, None)
              | (d3, _) => Some (d1, d2, Some d3)
              end
            else Some (d1, d2, None)
        | (d2, []) => Some (d1, d2, None)
        end
      else None
  | (_, []) => None
  end.

(** [int(group or 0)]. *)
Definition int_group (g : option ustr) : PyResult Z :=
  match g with Some d => int_of d | None => Ok 0%Z end.

(** utils.parse_duration. *)
Definition parse_duration (duration_str : ustr) : PyResult Z :=
  match duration_str with
  | [] => Ok 0%Z
  | _ =>
    let s := strip duration_str in
    match iso_match s with
    | Some (h, m, sec) =>
        py_bind (int_group h) (fun hours =>
        py_bind (int_group m) (fun minutes =>
        py_bind (int_group sec) (fun seconds =>
        Ok (hours * 3600 + minutes * 60 + seconds)%Z)))
    | None =>
      match time_match s with
      | Some (d1, d2, Some d3) =>
          py_bind (int_of d1) (fun hours =>
          py_bind (int_of d2) (fun minutes =>
          py_bind (int_of d3) (fun seconds =>
          Ok (hours * 3600 + minutes * 60 + seconds)%Z)))
      | Some (d1, d2, None) =>
          py_bind (int_of d1) (fun minutes =>
          py_bind (int_of d2) (fun seconds =>
          Ok (0 * 3600 + minutes * 60 + seconds)%Z))
      | None =>
          if isdigit s then int_of s else Ok 0%Z
      end
    end
  end.

(** ASCII text as code points. *)
Definition u (s : string) : ustr :=
  map (fun a => N_of_ascii a) (list_ascii_of_string s).

End Duration.

(* ------------------------------------------------------------------ *)
(** ** String operations of Python's [str] on Latin-1 text *)
Module Text.
Open Scope string_scope.

(** Strings here are Python strings of code points below U+0100, one
    [ascii] per code point. *)

Definition ROOT_URL : string := "https://rule34video.com".

(** [\d] and [str.isdecimal] for one character: the ASCII digits, the only
    decimal digits below U+0100. *)
Definition is_digit_char (c : ascii) : bool :=
  let n := nat_of_ascii c in (48 <=? n)%nat && (n <=? 57)%nat.

(** [str.isdigit] for one character: the decimal digits and the
    superscripts U+00B2, U+00B3 and U+00B9. *)
Definition isdigit_char (c : ascii) : bool :=
  let n := nat_of_ascii c in
  is_digit_char c || (n =? 178)%nat || (n =? 179)%nat || (n =? 185)%nat.

(** [str.isdigit]. *)
Definition isdigit (s : string) : bool :=
  match s with
  | EmptyString => false
  | _ => forallb isdigit_char (list_ascii_of_string s)
  end.

(** [str.isspace] (and the [\s] class) for one character. *)
Definition is_space (c : ascii) : bool :=
  let n := nat_of_ascii c in
  ((9 <=? n)%nat && (n <=? 13)%nat) || ((28 <=? n)%nat && (n <=? 32)%nat) ||
  (n =? 133)%nat || (n =? 160)%nat.

Fixpoint lstrip_by (p : ascii -> bool) (s : string) : string :=
  match s with
  | String c r => if p c then lstrip_by p r else s
  | EmptyString => EmptyString
  end.

Definition rev_str (s : string) : string :=
  string_of_list_ascii (rev (list_ascii_of_string s)).

Definition rstrip_by (p : ascii -> bool) (s : string) : string :=
  rev_str (lstrip_by p (rev_str s)).

(** [str.strip()] and [str.rstrip(c)]. *)
Definition strip (s : string) : string := rstrip_by is_space (lstrip_by is_space s).
Definition rstrip_char (c : ascii) (s : string) : string :=
  rstrip_by (fun x => Ascii.eqb x c) s.

(** [str.startswith]. *)
Definition startswith (s pre : string) : bool := String.prefix pre s.

(** [pat in s]. *)
Fixpoint contains (pat s : string) : bool :=
  String.prefix pat s ||
  match s with
  | String _ r => contains pat r
  | EmptyString => false
  end.

(** [c in s] for one character. *)
(** The double-quote character and the one-character string of it. *)
Definition dq : ascii := "034"%char.
Definition dq_str : string := String dq EmptyString.

Definition has_char (c : ascii) (s : string) : bool :=
  existsb (Ascii.eqb c) (list_ascii_of_string s).

(** [str.endswith] for one character. *)
Definition endswith_char (s : string) (c : ascii) : bool :=
  match String.get (String.length s - 1) s with
  | Some x => (0 <? String.length s)%nat && Ascii.eqb x c
  | None => false
  end.

(** [s.replace(old, new)] (all non-overlapping occurrences, left to
    right) and [s.replace(old, new, 1)], for a non-empty [old]. *)
Fixpoint replace_all_fuel (fuel : nat) (old new s : string) : string :=
  match fuel with
  | O => s
  | S f =>
    if String.prefix old s then
      new ++ replace_all_fuel f old new
                (substring (String.length old) (String.length s) s)
    else match s with
         | String c r => String c (replace_all_fuel f old new r)
         | EmptyString => EmptyString
         end
  end.

Definition replace_all (old new s : string) : string :=
  replace_all_fuel (S (String.length s)) old new s.

Fixpoint replace_first (old new s : string) : string :=
  if String.prefix old s then
    new ++ substring (String.length old) (String.length s) s
  else match s with
       | String c r => String c (replace_first old new r)
       | EmptyString => EmptyString
       end.

(** Maximal leading run of [\d] digits. *)
Fixpoint span_digits (s : string) : string * string :=
  match s with
  | String c r =>
      if is_digit_char c then let (d, t) := span_digits r in (String c d, t)
      else (EmptyString, s)
  | EmptyString => (EmptyString, EmptyString)
  end.

(** [int()] of a digit string. *)
Fixpoint digits_value_acc (acc : Z) (s : string) : Z :=
  match s with
  | String c r => digits_value_acc (acc * 10 + Z.of_nat (nat_of_ascii c - 48))%Z r
  | EmptyString => acc
  end.
Definition digits_value (s : string) : Z := digits_value_acc 0%Z s.

(** [re.search(r'(\d+)', s)]: the first maximal digit run. *)
Fixpoint first_digit_run (s : string) : option string :=
  match s with
  | String c r =>
      if is_digit_char c then Some (fst (span_digits s)) else first_digit_run r
  | EmptyString => None
  end.

(** [str.lower()] for one character: A-Z and the Latin-1 capitals
    U+00C0..U+00DE except the sign U+00D7 map to their small letters. *)
Definition lower_char (c : ascii) : ascii :=
  let n := nat_of_ascii c in
  if ((65 <=? n)%nat && (n <=? 90)%nat) ||
     ((192 <=? n)%nat && (n <=? 222)%nat && negb (n =? 215)%nat)
  then ascii_of_nat (n + 32) else c.
Fixpoint lower (s : string) : string :=
  match s with
  | String c r => String (lower_char c) (lower r)
  | EmptyString => EmptyString
  end.

(** The order-preserving de-duplication loop over a [seen] set. *)
Fixpoint dedup_acc (seen : list string) (l : list string) : list string :=
  match l with
  | [] => []
  | v :: r =>
      if existsb (String.eqb v) seen then dedup_acc seen r
      else v :: dedup_acc (v :: seen) r
  end.
Definition dedup (l : list string) : list string := dedup_acc [] l.

End Text.

(* ------------------------------------------------------------------ *)
(** ** Identifier extraction and URL candidates (utils.extract_video_id,
       Video.__init__, Video._get_url_variants, main._parse_video_identifier) *)
Module Urls.
Import Text.
Open Scope string_scope.

(** One attempt of [REGEX_VIDEO_ID = /videos?/(\d+)] at the start of [s]. *)
Definition video_id_at (s : string) : option string :=
  if String.prefix "/video" s then
    let r := substring 6 (String.length s) s in
    let try_after (t : string) :=
      match span_digits t with
      | (EmptyString, _) => None
      | (d, _) => Some d
      end in
    match (if String.prefix "s/" r then try_after (substring 2 (String.length r) r)
           else None) with
    | Some d => Some d
    | None => if String.prefix "/" r then try_after (substring 1 (String.length r) r)
              else None
    end
  else None.

(** One attempt of [REGEX_VIDEO_ID_ALT = video[_-]?(\d+)] at the start of [s]. *)
Definition video_id_alt_at (s : string) : option string :=
  if String.prefix "video" s then
    let r := substring 5 (String.length s) s in
    let digits_of (t : string) :=
      match span_digits t with
      | (EmptyString, _) => None
      | (d, _) => Some d
      end in
    match r with
    | String c t =>
        if Ascii.eqb c "_" || Ascii.eqb c "-" then
          match digits_of t with Some d => Some d | None => digits_of r end
        else digits_of r
    | EmptyString => None
    end
  else None.

(** [regex.search]: the leftmost position where the attempt succeeds. *)
Fixpoint search (attempt : string -> option string) (s : string) : option string :=
  match attempt s with
  | Some g => Some g
  | None => match s with
            | String _ r => search attempt r
            | EmptyString => None
            end
  end.

(** utils.extract_video_id. *)
Definition extract_video_id (url_or_id : string) : option string :=
  if String.eqb url_or_id "" then None
  else
    let s := strip url_or_id in
    if isdigit s then Some s
    else match search video_id_at s with
         | Some d => Some d
         | None => search video_id_alt_at s
         end.

(** Video._get_url_variants for a video whose id is [vid] and whose
    [full_url] attribute is [full_url]. *)
Definition get_url_variants (vid : string) (full_url : option string) : list string :=
  let known :=
    match full_url with
    | Some f =>
        if String.eqb f "" then []
        else
          let full := if startswith f "http" then f else ROOT_URL ++ f in
          full ::
          (if contains "/videos/" full then [replace_all "/videos/" "/video/" full]
           else if contains "/video/" full then [replace_all "/video/" "/videos/" full]
           else [])
    | None => []
    end in
  dedup (known ++
         [ROOT_URL ++ "/video/" ++ vid ++ "/";
          ROOT_URL ++ "/videos/" ++ vid ++ "/";
          ROOT_URL ++ "/video/" ++ vid;
          ROOT_URL ++ "/videos/" ++ vid]).

(** [Video(video_id, full_url=full_url)._get_url_variants()]; [None] when
    the constructor raises [InvalidURL]. *)
Definition url_candidates (video_id : string) (full_url : option string)
  : option (list string) :=
  match extract_video_id video_id with
  | Some vid => Some (get_url_variants vid full_url)
  | None => None
  end.

(** [s.split('/', 1)]. *)
Fixpoint split_slash_once (s : string) : option (string * string) :=
  match s with
  | String c r =>
      if Ascii.eqb c "/" then Some (EmptyString, r)
      else match split_slash_once r with
           | Some (a, b) => Some (String c a, b)
           | None => None
           end
  | EmptyString => None
  end.

(** main._parse_video_identifier; [cache] is the plugin's
    [_video_url_cache] (id -> full URL). *)
Definition parse_video_identifier (cache : list (string * string)) (identifier : string)
  : string * option string :=
  let identifier := strip identifier in
  match split_slash_once identifier with
  | Some (video_id, rest) =>
      let slug := rstrip_char "/" rest in
      (video_id, Some ("https://rule34video.com/video/" ++ video_id ++ "/" ++ slug ++ "/"))
  | None =>
      (identifier,
       match find (fun kv => String.eqb (fst kv) identifier) cache with
       | Some (_, v) => Some v
       | None => None
       end)
  end.

(** The candidate list a user identifier leads to:
    [client.get_video] applied to [self._parse_video_identifier(identifier)]. *)
Definition candidates_for (cache : list (string * string)) (identifier : string)
  : option (list string) :=
  let (vid, full) := parse_video_identifier cache identifier in
  url_candidates vid full.

End Urls.

(* ------------------------------------------------------------------ *)
(** ** Video.load: trying the candidate URLs in order *)
Module Fetch.
Import Text.
Open Scope string_scope.

(** What one attempt [session.get(try_url)] gives [load]: a response with
    its status and body text; an [aiohttp.ClientError] with its message,
    raised by the request or by reading the body; or another exception
    with its message, which neither [except aiohttp.ClientError] clause of
    [load] catches, such as the [asyncio.TimeoutError] of
    [ClientTimeout(total=30)] or the [UnicodeDecodeError] of
    [response.text()]. *)
Inductive Outcome : Type :=
| Response (status : Z) (body : string)
| ClientError (msg : string)
| OtherError (exc : string).

(** The end of [load]: the page accepted (with its URL and body), the
    exception raised once every variant has failed, or an uncaught
    exception of one attempt, which leaves [load] at once. *)
Inductive LoadResult : Type :=
| Loaded (url body : string)
| VideoNotFound
| NetworkError (msg : string)
| Raised (exc : string).

Definition video_indicators : list string :=
  ["<video"; "video_url"; "sources"; "og:video"; "player"; "video-player";
   "video_player"; "kt_player"; "flashvars"; ".mp4"; "video/mp4";
   "uploadDate"; "duration"].

(** The checks [load] makes on the text of a 200 response. *)
Definition page_accepted (html_content : string) : bool :=
  let content_length := String.length html_content in
  if contains "Video not found" html_content then false
  else if contains "<title>404" html_content || contains "Page not found" html_content
  then false
  else if (content_length <? 1000)%nat then false
  else
    let is_video_page :=
      existsb (fun ind => contains (lower ind) (lower html_content)) video_indicators in
    is_video_page || (5000 <? content_length)%nat.

(** The [for try_url in url_variants] loop and the raise after it. *)
Fixpoint load_loop (last_error : option string) (attempts : list (string * Outcome))
  : LoadResult :=
  match attempts with
  | [] =>
      match last_error with
      | Some e => NetworkError e
      | None => VideoNotFound
      end
  | (try_url, ClientError e) :: rest => load_loop (Some e) rest
  | (try_url, OtherError x) :: rest => Raised x
  | (try_url, Response status html) :: rest =>
      if (status =? 404)%Z then load_loop last_error rest
      else if negb (status =? 200)%Z then load_loop last_error rest
      else if page_accepted html then Loaded try_url html
      else load_loop last_error rest
  end.

(** Video.load (first load) with [fetch] answering each URL. *)
Definition load (fetch : string -> Outcome) (url_variants : list string) : LoadResult :=
  load_loop None (map (fun v => (v, fetch v)) url_variants).

(** Whether an outcome is an accepted page. *)
Definition outcome_accepted (o : Outcome) : bool :=
  match o with
  | Response status html => (status =? 200)%Z && page_accepted html
  | ClientError _ | OtherError _ => false
  end.

(** The message of the first exception [load] does not catch. *)
Fixpoint first_uncaught (os : list Outcome) : option string :=
  match os with
  | [] => None
  | OtherError x :: _ => Some x
  | _ :: r => first_uncaught r
  end.


End Fetch.

(* ------------------------------------------------------------------ *)
(** ** Video.rating *)
Module Rating.

(** [p / q] rounded to the nearest integer, ties to even, for [q > 0]. *)
Definition round_half_even_div (p q : Z) : Z :=
  let d := (p / q)%Z in
  let r := (p mod q)%Z in
  if (2 * r <? q)%Z then d
  else if (q <? 2 * r)%Z then (d + 1)%Z
  else if Z.even d then d else (d + 1)%Z.

(** A Python float other than NaN: an IEEE 754 binary64 value, that is a
    sign and a finite magnitude (an exact rational), or an infinity. *)
Inductive float64 : Type :=
| Finite (neg : bool) (mag : Q)
| Infinity (neg : bool).

(** [n / d < 2 ^ e], for [n, d > 0]. *)
Definition lt_pow2 (n d e : Z) : bool :=
  if (0 <=? e)%Z then (n <? d * 2 ^ e)%Z else (n * 2 ^ (- e) <? d)%Z.

(** [2 ^ e] as a rational. *)
Definition pow2 (e : Z) : Q :=
  if (0 <=? e)%Z then inject_Z (2 ^ e) else Qmake 1 (Z.to_pos (2 ^ (- e))).

(** A non-negative rational rounded to the nearest binary64 magnitude, ties
    to even: a 53-bit significand scaled by [2 ^ e], with [e] at least
    [-1074] (the subnormals).  [None] when the rounded value reaches
    [2 ^ 1024], where binary64 overflows. *)
Definition round_mag (x : Q) : option Q :=
  let n := Qnum x in
  let d := Zpos (Qden x) in
  if (n <=? 0)%Z then Some 0%Q
  else
    let e0 := (Z.log2 n - Z.log2 d)%Z in
    (* the exponent of [x]: [2 ^ lg <= x < 2 ^ (lg + 1)] *)
    let lg := if lt_pow2 n d e0 then (e0 - 1)%Z else e0 in
    let e := Z.max (lg - 52) (-1074) in
    let m := if (0 <=? e)%Z then round_half_even_div n (d * 2 ^ e)
             else round_half_even_div (n * 2 ^ (- e)) d in
    if (0 <=? e)%Z && (2 ^ 1024 <=? m * 2 ^ e)%Z then None
    else Some (inject_Z m * pow2 e)%Q.

(** Python's [a / b] on ints, [b <> 0]: the correctly rounded quotient
    ([long_true_divide]), a zero carrying the sign of the quotient;
    [None] is the [OverflowError] raised when it does not fit a float. *)
Definition int_truediv (a b : Z) : option float64 :=
  let neg := xorb (a <? 0)%Z (b <? 0)%Z in
  match round_mag (Qmake (Z.abs a) (Z.to_pos (Z.abs b))) with
  | Some v => Some (Finite neg v)
  | None => None
  end.

(** [x * 100] for a float [x]: the product with [100.0] rounded, an
    infinity on overflow. *)
Definition mul100 (x : float64) : float64 :=
  match x with
  | Finite neg v =>
      match round_mag (v * inject_Z 100)%Q with
      | Some w => Finite neg w
      | None => Infinity neg
      end
  | Infinity neg => Infinity neg
  end.

(** [round(x, 2)] ([float.__round__] with [double_round]): infinities are
    returned unchanged; a finite magnitude is rounded half to even to a
    number of hundredths [k] ([_Py_dg_dtoa] in mode 3, exact on the binary
    value), then [k / 100] is read back as the nearest float
    ([_Py_dg_strtod]) with the sign of [x]; [None] is the [OverflowError]
    of a rounded value too large. *)
Definition round2 (x : float64) : option float64 :=
  match x with
  | Infinity neg => Some (Infinity neg)
  | Finite neg v =>
      let k := round_half_even_div (Qnum v * 100) (Zpos (Qden v)) in
      match round_mag (Qmake k 100) with
      | Some w => Some (Finite neg w)
      | None => None
      end
  end.

(** Video.rating: [0.0] when [total = likes + dislikes] is zero, else
    [round((likes / total) * 100, 2)] in float arithmetic; [None] when
    that raises [OverflowError]. *)
Definition rating (likes dislikes : Z) : option float64 :=
  let total := (likes + dislikes)%Z in
  if (total =? 0)%Z then Some (Finite false 0%Q)
  else
    match int_truediv likes total with
    | Some q => round2 (mul100 q)
    | None => None
    end.

End Rating.

(* ------------------------------------------------------------------ *)
(** ** Python dicts with insertion order (the [_quality_urls] map) *)
Module PyDict.
Open Scope string_scope.

(** A [Dict[str, str]]: its items in insertion order. *)
Definition dict := list (string * string).

Definition keys (m : dict) : list string := map fst m.
Definition values (m : dict) : list string := map snd m.

(** [k in m]. *)
Definition mem (k : string) (m : dict) : bool := existsb (String.eqb k) (keys m).

(** [m.get(k)] and [m[k]]. *)
Fixpoint get (k : string) (m : dict) : option string :=
  match m with
  | [] => None
  | (k', v) :: r => if String.eqb k k' then Some v else get k r
  end.

(** [m[k] = v]: an existing key keeps its position and takes the new value,
    a new key is appended. *)
Fixpoint set (k v : string) (m : dict) : dict :=
  match m with
  | [] => [(k, v)]
  | (k', v') :: r => if String.eqb k k' then (k', v) :: r else (k', v') :: set k v r
  end.

End PyDict.

(* ------------------------------------------------------------------ *)
(** ** Quality selection (utils.normalize_quality, utils.select_best_quality,
       Video.get_video_url) *)
Module Select.
Import Text PyDict.
Open Scope string_scope.

(** The argument of [normalize_quality]: [Union[str, int]]. *)
Inductive QualityArg : Type :=
| QInt (n : Z)
| QStr (s : string).

(** [f"{n}"] for an int of at most [int_max_str_digits] digits. *)
Definition z_to_string (n : Z) : string := NilEmpty.string_of_int (Z.to_int n).

(** [f"{n}"] for any int: an int of more than [int_max_str_digits]
    decimal digits, that is of absolute value [10 ^ 4300] or more, makes
    Python 3.11 raise [ValueError]. *)
Definition int_to_str (n : Z) : PyResult string :=
  if (10 ^ Z.of_nat int_max_str_digits <=? Z.abs n)%Z then ValueError
  else Ok (z_to_string n).

(** utils.normalize_quality. *)
Definition normalize_quality (quality : QualityArg) : PyResult string :=
  match quality with
  | QInt n => py_bind (int_to_str n) (fun s => Ok (s ++ "p"))
  | QStr s =>
      let q := strip (lower s) in
      if existsb (String.eqb q) ["best"; "highest"; "max"] then Ok "best"
      else if existsb (String.eqb q) ["worst"; "lowest"; "min"] then Ok "worst"
      else if existsb (String.eqb q) ["half"; "medium"; "mid"] then Ok "half"
      else match first_digit_run q with
           | Some d => Ok (d ++ "p")
           | None => Ok "best"
           end
  end.

(** [get_resolution] inside select_best_quality: the [int] of the first
    digit run of the label, 0 when it has none.  [int] raises on a run of
    more than [int_max_str_digits] digits, which
    [get_resolution_raises] tells. *)
Definition get_resolution (q : string) : Z :=
  match first_digit_run q with
  | Some d => digits_value d
  | None => 0%Z
  end.

Definition get_resolution_raises (q : string) : bool :=
  match first_digit_run q with
  | Some d => (int_max_str_digits <? String.length d)%nat
  | None => false
  end.

(** [sorted(l, key=get_resolution, reverse=True)]: a stable sort, so labels
    of equal resolution keep their order. *)
Fixpoint insert_desc (x : string) (l : list string) : list string :=
  match l with
  | [] => [x]
  | y :: r => if (get_resolution y <? get_resolution x)%Z then x :: l
              else y :: insert_desc x r
  end.

Definition sort_desc (l : list string) : list string :=
  fold_left (fun acc x => insert_desc x acc) l [].

(** utils.select_best_quality.  [sorted] computes the key of every label
    before it sorts, so one label whose [get_resolution] raises makes the
    whole call raise. *)
Definition select_best_quality (available_qualities : list string) (target : string)
  : PyResult (option string) :=
  match available_qualities with
  | [] => Ok None
  | _ =>
    if existsb get_resolution_raises available_qualities then ValueError else
    let sorted_qualities := sort_desc available_qualities in
    py_bind (normalize_quality (QStr target)) (fun target =>
    if String.eqb target "best" then Ok (hd_error sorted_qualities)
    else if String.eqb target "worst" then Ok (Some (last sorted_qualities ""))
    else if String.eqb target "half" then
      Ok (nth_error sorted_qualities (Nat.div (List.length sorted_qualities) 2))
    else if get_resolution_raises target then ValueError else
      let target_res := get_resolution target in
      match find (fun q => (get_resolution q =? target_res)%Z) sorted_qualities with
      | Some q => Ok (Some q)
      | None =>
          match find (fun q => (get_resolution q <=? target_res)%Z) sorted_qualities with
          | Some q => Ok (Some q)
          | None => Ok (Some (last sorted_qualities ""))
          end
      end)
  end.

(** Video.get_video_url on a loaded video whose map is [quality_urls]. *)
Definition get_video_url (quality_urls : dict) (quality : QualityArg)
  : PyResult (option string) :=
  match quality_urls with
  | [] => Ok None
  | _ =>
    py_bind (normalize_quality quality) (fun q =>
    if mem q quality_urls then Ok (get q quality_urls)
    else
      py_bind (select_best_quality (keys quality_urls) q) (fun selected =>
      match selected with
      | Some selected =>
          if String.eqb selected "" then Ok (hd_error (values quality_urls))
          else Ok (get selected quality_urls)
      | None => Ok (hd_error (values quality_urls))
      end))
  end.

End Select.

(* ------------------------------------------------------------------ *)
(** ** Video._clean_video_url and Video._extract_quality_from_url *)
Module Clean.
Import Text.
Open Scope string_scope.

(** Text up to the first newline ([.*] without DOTALL). *)
Fixpoint until_newline (s : string) : string :=
  match s with
  | String c r => if Ascii.eqb c "010"%char then EmptyString else String c (until_newline r)
  | EmptyString => EmptyString
  end.

(** [re.match] of [^function/\d+/] followed by the group [https?://]
    and the rest of the line, at the start of [url]: the group. *)
Definition function_prefix_match (url : string) : option string :=
  if String.prefix "function/" url then
    let r := substring 9 (String.length url) url in
    match span_digits r with
    | (EmptyString, _) => None
    | (_, t) =>
        if String.prefix "/" t then
          let g := substring 1 (String.length t) t in
          if String.prefix "https://" g || String.prefix "http://" g
          then Some (until_newline g) else None
        else None
    end
  else None.

Fixpoint drop_slashes (s : string) : string :=
  match s with
  | String c r => if Ascii.eqb c "/" then drop_slashes r else s
  | EmptyString => EmptyString
  end.

(** [re.sub(r'([^:])//+', r'\1/', url)]: a character other than ':'
    followed by two or more slashes keeps one slash. *)
Fixpoint collapse_slashes_fuel (fuel : nat) (s : string) : string :=
  match fuel with
  | O => s
  | S f =>
    match s with
    | String c r =>
        if negb (Ascii.eqb c ":") && String.prefix "//" r
        then String c (String "/" (collapse_slashes_fuel f (drop_slashes r)))
        else String c (collapse_slashes_fuel f r)
    | EmptyString => EmptyString
    end
  end.

Definition collapse_slashes (s : string) : string :=
  collapse_slashes_fuel (String.length s) s.

(** Video._clean_video_url ([None] for Python's [None]). *)
Definition clean_video_url (url : string) : option string :=
  if String.eqb url "" then None
  else
    let url := strip url in
    let url := match function_prefix_match url with Some g => g | None => url end in
    let url := collapse_slashes url in
    if startswith url "http://" || startswith url "https://" then Some url
    else if startswith url "//" then Some ("https:" ++ url)
    else if startswith url "/" then Some (ROOT_URL ++ url)
    else Some url.

(** [url = self._clean_video_url(x); if url: ...]: the cleaned URL when it
    is a non-empty string. *)
Definition cleaned (x : string) : option string :=
  match clean_video_url x with
  | Some u => if String.eqb u "" then None else Some u
  | None => None
  end.

Definition is_sep (c : ascii) : bool := Ascii.eqb c "_" || Ascii.eqb c "/".

(** [n] leading digits of [s] ([\d{n}]). *)
Definition take_digits (n : nat) (s : string) : option (string * string) :=
  let d := substring 0 n s in
  if (String.length d =? n)%nat && forallb is_digit_char (list_ascii_of_string d)
  then Some (d, substring n (String.length s) s) else None.

(** The three patterns of _extract_quality_from_url after [[_/](\d{3,4})],
    under IGNORECASE: [p?\.mp4], [p[_/]] and [[_/]]. *)
Definition tail_mp4 (t : string) : bool :=
  let is_mp4 (x : string) := String.prefix ".mp4" (lower x) in
  match t with
  | String c r => ((Ascii.eqb (lower_char c) "p") && is_mp4 r) || is_mp4 t
  | EmptyString => false
  end.
Definition tail_p_sep (t : string) : bool :=
  match t with
  | String c (String c' _) => Ascii.eqb (lower_char c) "p" && is_sep c'
  | _ => false
  end.
Definition tail_sep (t : string) : bool :=
  match t with
  | String c _ => is_sep c
  | EmptyString => false
  end.

(** One attempt of [[_/](\d{3,4})<tail>] at the start of [s], trying four
    digits before three. *)
Definition quality_at (tail : string -> bool) (s : string) : option string :=
  match s with
  | String c r =>
      if is_sep c then
        match take_digits 4 r with
        | Some (d, t) => if tail t then Some d else
            match take_digits 3 r with
            | Some (d3, t3) => if tail t3 then Some d3 else None
            | None => None
            end
        | None =>
            match take_digits 3 r with
            | Some (d3, t3) => if tail t3 then Some d3 else None
            | None => None
            end
        end
      else None
  | EmptyString => None
  end.

Fixpoint search_at (attempt : string -> option string) (s : string) : option string :=
  match attempt s with
  | Some g => Some g
  | None => match s with
            | String _ r => search_at attempt r
            | EmptyString => None
            end
  end.

(** Video._extract_quality_from_url. *)
Definition extract_quality_from_url (url : string) : string :=
  if String.eqb url "" then "default"
  else match search_at (quality_at tail_mp4) url with
       | Some res => res ++ "p"
       | None =>
         match search_at (quality_at tail_p_sep) url with
         | Some res => res ++ "p"
         | None =>
           match search_at (quality_at tail_sep) url with
           | Some res => res ++ "p"
           | None => "default"
           end
         end
       end.

End Clean.

(* ------------------------------------------------------------------ *)
(** ** Video._parse_quality_urls

    The regular-expression searches over the page are represented by their
    captures: a [PageScan] holds, for each pass, what [re.search] /
    [re.findall] return on the page body.  Everything the method does with
    those captures (cleaning, labelling, the guards and the writes into
    [self._quality_urls]) is modelled as written. *)
Module Quality.
Import Text PyDict Clean.
Open Scope string_scope.

(** Captures inside the [flashvars = {...}] block: [video_url],
    [video_url_text], and the (url, text) pairs of [video_alt_url],
    [video_alt_url2] and [video_alt_url3]. *)
Record FlashvarsScan : Type := {
  fv_video_url : option string;
  fv_video_url_text : option string;
  fv_alts : list (option string * option string)
}.

(** One element of a parsed [sources] list: a dict (its [label] /
    [quality] / [res] value as [str(label)], "" when missing or falsy, and
    its [src] / [file] / [url] string, "" when missing), a string, or any
    other JSON value. *)
Inductive JsonSource : Type :=
| JDict (label src : string)
| JStr (src : string)
| JOther.

Record PageScan : Type := {
  scan_flashvars : option FlashvarsScan;
  (** [re.findall] of mp4 URLs inside the [kt_player(...)] call ([] when
      there is no such call). *)
  scan_kt_urls : list string;
  (** For the two [sources] patterns in order: the parsed list, or [None]
      when the pattern does not match or [json.loads] fails. *)
  scan_json : list (option (list JsonSource));
  (** [re.findall] of [<source ... src=... label=...>]: (src, label). *)
  scan_html5 : list (string * string);
  (** [group(1)] of REGEX_VIDEO_SOURCE_2160, _1080, _720, _480, _360. *)
  scan_quality : list (option string);
  (** [re.findall] of blanket [https?://...mp4] URLs. *)
  scan_mp4 : list string;
  (** [group(1)] of REGEX_VIDEO_SOURCE, REGEX_VIDEO_SOURCE_ALT and
      REGEX_VIDEO_SOURCE_GENERIC. *)
  scan_source : option string;
  scan_source_alt : option string;
  scan_source_generic : option string
}.

Definition quality_labels : list string := ["2160p"; "1080p"; "720p"; "480p"; "360p"].

(** Method 1: flashvars. *)
Definition pass_flashvars (fv : option FlashvarsScan) (m : dict) : dict :=
  match fv with
  | None => m
  | Some f =>
    let m :=
      match fv_video_url f with
      | Some raw =>
          match cleaned raw with
          | Some url =>
              let quality := match fv_video_url_text f with
                             | Some t => t | None => "default" end in
              set (strip quality) url m
          | None => m
          end
      | None => m
      end in
    fold_left (fun m (alt : option string * option string) =>
      match fst alt with
      | Some raw =>
          match cleaned raw with
          | Some url =>
              let quality := match snd alt with
                             | Some t => strip t | None => "alt" end in
              set quality url m
          | None => m
          end
      | None => m
      end) (fv_alts f) m
  end.

(** Method 2: kt_player. *)
Definition pass_kt_player (urls : list string) (m : dict) : dict :=
  fold_left (fun m raw =>
    match cleaned raw with
    | Some url => set (extract_quality_from_url url) url m
    | None => m
    end) urls m.

(** Method 3: the JSON [sources] lists. *)
Definition json_source_step (m : dict) (source : JsonSource) : dict :=
  match source with
  | JDict label src =>
      if String.eqb src "" then m
      else match cleaned src with
           | Some src =>
               let quality := if String.eqb label "" then extract_quality_from_url src
                              else label in
               set quality src m
           | None => m
           end
  | JStr source =>
      match cleaned source with
      | Some src => set (extract_quality_from_url src) src m
      | None => m
      end
  | JOther => m
  end.

Definition pass_json (blocks : list (option (list JsonSource))) (m : dict) : dict :=
  fold_left (fun m block =>
    match block with
    | Some sources => fold_left json_source_step sources m
    | None => m
    end) blocks m.

(** Method 4: HTML5 [<source>] tags. *)
Definition pass_html5 (matches : list (string * string)) (m : dict) : dict :=
  fold_left (fun m (mt : string * string) =>
    let (raw, quality) := mt in
    if negb (String.eqb raw "") && contains ".mp4" raw then
      match cleaned raw with
      | Some url =>
          let quality := if String.eqb quality "" then extract_quality_from_url url
                         else quality in
          set quality url m
      | None => m
      end
    else m) matches m.

(** Method 5: the quality-specific regexes, only for absent labels. *)
Definition pass_quality_regex (caps : list (option string)) (m : dict) : dict :=
  fold_left (fun m (pq : string * option string) =>
    let (quality, cap) := pq in
    if negb (mem quality m) then
      match cap with
      | Some raw =>
          match cleaned raw with
          | Some url => set quality url m
          | None => m
          end
      | None => m
      end
    else m) (combine quality_labels caps) m.

(** Method 6: blanket mp4 scan, only when the map is still empty. *)
Definition mp4_step (acc : list string * dict) (raw : string) : list string * dict :=
  let (seen_urls, m) := acc in
  match cleaned raw with
  | Some url =>
      if existsb (String.eqb url) seen_urls then (seen_urls, m)
      else
        let quality := extract_quality_from_url url in
        (url :: seen_urls, if mem quality m then m else set quality url m)
  | None => (seen_urls, m)
  end.

Definition pass_mp4 (urls : list string) (m : dict) : dict :=
  match m with
  | [] => snd (fold_left mp4_step urls ([], m))
  | _ => m
  end.

(** Method 7: generic source regexes, only when the map is still empty. *)
Definition pass_generic (sc : PageScan) (m : dict) : dict :=
  match m with
  | [] =>
      let put (raw : string) :=
        match cleaned raw with
        | Some url => set "default" url m
        | None => m
        end in
      match scan_source sc with
      | Some raw => put raw
      | None =>
          match scan_source_alt sc with
          | Some raw => put raw
          | None =>
              match scan_source_generic sc with
              | Some raw => put raw
              | None => m
              end
          end
      end
  | _ => m
  end.

(** Methods 1 to 4, from the empty map [self._quality_urls = {}]. *)
Definition structured_passes (sc : PageScan) : dict :=
  pass_html5 (scan_html5 sc)
    (pass_json (scan_json sc)
      (pass_kt_player (scan_kt_urls sc)
        (pass_flashvars (scan_flashvars sc) []))).

(** Video._parse_quality_urls on a freshly loaded video. *)
Definition parse_quality_urls (sc : PageScan) : dict :=
  pass_generic sc
    (pass_mp4 (scan_mp4 sc)
      (pass_quality_regex (scan_quality sc) (structured_passes sc))).

End Quality.

(* ------------------------------------------------------------------ *)
(** ** Listing pages (Client.search, Client.get_videos_by_category,
       Client.get_videos_by_tag) *)
Module Listing.
Import Text.
Open Scope string_scope.

(** A regex literal [pat] (written in lower case when [ci], the IGNORECASE
    flag, is set): the text it matched, in its original case, and the
    rest. *)
Fixpoint re_take (ci : bool) (pat s : string) : option (string * string) :=
  match pat with
  | EmptyString => Some (EmptyString, s)
  | String p ps =>
      match s with
      | String c r =>
          if Ascii.eqb (if ci then lower_char c else c) p then
            match re_take ci ps r with
            | Some (m, t) => Some (String c m, t)
            | None => None
            end
          else None
      | EmptyString => None
      end
  end.

Definition ci_take : string -> string -> option (string * string) := re_take true.

Definition is_quote (c : ascii) : bool := Ascii.eqb c dq || Ascii.eqb c "'".

(** Maximal run of characters other than those in [stop]. *)
Fixpoint span_not (stop : ascii -> bool) (s : string) : string * string :=
  match s with
  | String c r =>
      if stop c then (EmptyString, s)
      else let (a, b) := span_not stop r in (String c a, b)
  | EmptyString => (EmptyString, EmptyString)
  end.

(** [(\d+)/]: a maximal digit run followed by a slash. *)
Definition digits_slash (t : string) : option (string * string) :=
  match span_digits t with
  | (EmptyString, _) => None
  | (d, String c r) => if Ascii.eqb c "/" then Some (d, r) else None
  | (_, EmptyString) => None
  end.

(** [/videos?/(\d+)/] under IGNORECASE at the start of [t]: the text of
    [/videos?/], the digits, and the rest after the slash that follows
    them. *)
Definition path_at_by (ci : bool) (t : string) : option (string * string * string) :=
  match re_take ci "/video" t with
  | None => None
  | Some (v, r) =>
      let plural :=
        match r with
        | String c r1 =>
            if Ascii.eqb (if ci then lower_char c else c) "s" then
              match r1 with
              | String sl r' =>
                  if Ascii.eqb sl "/" then
                    match digits_slash r' with
                    | Some (d, r'') => Some (v ++ String c (String sl EmptyString), d, r'')
                    | None => None
                    end
                  else None
              | EmptyString => None
              end
            else None
        | EmptyString => None
        end in
      match plural with
      | Some x => Some x
      | None =>
          match r with
          | String sl r' =>
              if Ascii.eqb sl "/" then
                match digits_slash r' with
                | Some (d, r'') => Some (v ++ String sl EmptyString, d, r'')
                | None => None
                end
              else None
          | EmptyString => None
          end
      end
  end.

Definition path_at : string -> option (string * string * string) := path_at_by true.

(** [re.findall] with an attempt that returns its captures and the text
    after the match; [skip] counts characters still inside the previous
    match. *)
Fixpoint scan {T : Type} (attempt : string -> option (T * string))
  (skip : nat) (s : string) : list T :=
  match s with
  | EmptyString => []
  | String _ r =>
      match skip with
      | S k => scan attempt k r
      | O =>
          match attempt s with
          | Some (x, rest) => x :: scan attempt (String.length s - String.length rest - 1) r
          | None => scan attempt 0 r
          end
      end
  end.

Definition findall {T : Type} (attempt : string -> option (T * string)) (s : string)
  : list T := scan attempt 0 s.

(** The captured [(/videos?/(\d+)/(<slug>))] followed by a closing quote
    accepted by [is_close]; [slug_stop] ends the slug. *)
Definition link_path (slug_stop is_close : ascii -> bool) (t : string)
  : option ((string * string * string) * string) :=
  match path_at t with
  | Some (pre, d, r) =>
      match span_not slug_stop r with
      | (EmptyString, _) => None
      | (slug, String q rest) =>
          if is_close q then Some ((pre ++ d ++ "/" ++ slug, d, slug), rest) else None
      | (_, EmptyString) => None
      end
  | None => None
  end.

(** Search pattern 1: [href=], a quote, the captured [/videos?/(\d+)/(slug)]
    with a slug free of quotes, and a closing quote (IGNORECASE). *)
Definition search_p1_at (s : string) : option ((string * string * string) * string) :=
  match ci_take "href=" s with
  | Some (_, String q t) => if is_quote q then link_path is_quote is_quote t else None
  | _ => None
  end.

(** Search pattern 2: as pattern 1, with an optional [https?://host] before
    the captured path. *)
Definition search_p2_at (s : string) : option ((string * string * string) * string) :=
  match ci_take "href=" s with
  | Some (_, String q t) =>
      if is_quote q then
        let with_host :=
          match ci_take "http" t with
          | Some (_, t1) =>
              let t2 := match t1 with
                        | String c r => if Ascii.eqb (lower_char c) "s" then
                                          match ci_take "://" r with
                                          | Some x => Some x
                                          | None => ci_take "://" t1
                                          end
                                        else ci_take "://" t1
                        | EmptyString => None
                        end in
              match t2 with
              | Some (_, t3) =>
                  match span_not (fun c => Ascii.eqb c "/") t3 with
                  | (EmptyString, _) => None
                  | (_, t4) => link_path is_quote is_quote t4
                  end
              | None => None
              end
          | None => None
          end in
        match with_host with
        | Some x => Some x
        | None => link_path is_quote is_quote t
        end
      else None
  | _ => None
  end.

(** The thumbnail pattern: [<a], a non-empty run without [>], [href=],
    a quoted value containing [/videos?/(\d+)/] (captured whole), then
    everything up to the next [>]; the greedy run makes the last suitable
    [href=] of the tag win. *)
Definition thumb_href_at (t : string) : option ((string * string) * string) :=
  match ci_take "href=" t with
  | Some (_, String q u) =>
      if is_quote q then
        match span_not is_quote u with
        | (v, String q' rest) =>
            let id := (fix first_id (w : string) : option string :=
                         match path_at w with
                         | Some (_, d, _) => Some d
                         | None => match w with
                                   | String _ w' => first_id w'
                                   | EmptyString => None
                                   end
                         end) v in
            match id with
            | Some d =>
                match span_not (fun c => Ascii.eqb c ">") rest with
                | (_, String _ after) => Some ((v, d), after)
                | (_, EmptyString) => None
                end
            | None => None
            end
        | (_, EmptyString) => None
        end
      else None
  | _ => None
  end.

Definition thumb_at (s : string) : option ((string * string) * string) :=
  match ci_take "<a" s with
  | Some (_, t) =>
      let body := fst (span_not (fun c => Ascii.eqb c ">") t) in
      (* candidate starts of [href=], from the last one back to the first *)
      let fix try_from (n : nat) : option ((string * string) * string) :=
        match n with
        | O => None
        | S k =>
            match thumb_href_at (substring n (String.length t) t) with
            | Some x => Some x
            | None => try_from k
            end
        end in
      try_from (String.length body)
  | None => None
  end.

(** The id pattern: [/videos?/(\d+)] followed by a slash or a quote. *)
Definition id_at (s : string) : option (string * string) :=
  match ci_take "/video" s with
  | None => None
  | Some (_, r) =>
      let ends (t : string) : option (string * string) :=
        match span_digits t with
        | (EmptyString, _) => None
        | (d, String c rest) =>
            if Ascii.eqb c "/" || is_quote c then Some (d, rest) else None
        | (_, EmptyString) => None
        end in
      let plural :=
        match r with
        | String c r1 =>
            if Ascii.eqb (lower_char c) "s" then
              match r1 with
              | String sl r' => if Ascii.eqb sl "/" then ends r' else None
              | EmptyString => None
              end
            else None
        | EmptyString => None
        end in
      match plural with
      | Some x => Some x
      | None =>
          match r with
          | String sl r' => if Ascii.eqb sl "/" then ends r' else None
          | EmptyString => None
          end
      end
  end.

(** A result dict: [video_id], [url], [full_path], [slug]. *)
Record Entry : Type := {
  video_id : string;
  url : string;
  full_path : string;
  slug : option string
}.

(** The loop body shared by the two href patterns of Client.search. *)
Definition search_step (max_results : nat) (st : list string * list Entry)
  (m : string * string * string) : list string * list Entry :=
  let '(seen_ids, results) := st in
  let '(full_path, vid, slug) := m in
  if negb (String.eqb vid "") && isdigit vid && negb (existsb (String.eqb vid) seen_ids)
     && (List.length results <? max_results)%nat then
    let normalized_path :=
      if startswith full_path "/videos/" then replace_first "/videos/" "/video/" full_path
      else full_path in
    let normalized_path :=
      if negb (endswith_char normalized_path "/") then normalized_path ++ "/"
      else normalized_path in
    (vid :: seen_ids,
     List.app results [{| video_id := vid; url := ROOT_URL ++ normalized_path;
                    full_path := normalized_path;
                    slug := Some (rstrip_char "/" slug) |}])
  else st.

(** The whole match of [/videos?/\d+/] and the quote-free run after it,
    searched in [full_path] (this search has no IGNORECASE flag). *)
Fixpoint path_in (s : string) : option string :=
  match path_at_by false s with
  | Some (pre, d, r) => Some (pre ++ d ++ "/" ++ fst (span_not is_quote r))
  | None => match s with
            | String _ r => path_in r
            | EmptyString => None
            end
  end.

Definition thumb_step (max_results : nat) (st : list string * list Entry)
  (m : string * string) : list string * list Entry :=
  let '(seen_ids, results) := st in
  let '(full_path, vid) := m in
  if negb (String.eqb vid "") && isdigit vid && negb (existsb (String.eqb vid) seen_ids)
     && (List.length results <? max_results)%nat then
    let normalized_path :=
      if startswith full_path "http" then
        match path_in full_path with
        | Some p => p
        | None => "/video/" ++ vid ++ "/"
        end
      else full_path in
    let normalized_path :=
      if contains "/videos/" normalized_path
      then replace_first "/videos/" "/video/" normalized_path
      else normalized_path in
    let normalized_path :=
      if negb (endswith_char normalized_path "/") then normalized_path ++ "/"
      else normalized_path in
    (vid :: seen_ids,
     List.app results [{| video_id := vid; url := ROOT_URL ++ normalized_path;
                    full_path := normalized_path; slug := None |}])
  else st.

Definition id_step (max_results : nat) (st : list string * list Entry) (vid : string)
  : list string * list Entry :=
  let '(seen_ids, results) := st in
  if negb (String.eqb vid "") && isdigit vid && negb (existsb (String.eqb vid) seen_ids)
     && (List.length results <? max_results)%nat then
    (vid :: seen_ids,
     List.app results [{| video_id := vid; url := ROOT_URL ++ "/video/" ++ vid ++ "/";
                    full_path := "/video/" ++ vid ++ "/"; slug := None |}])
  else st.

(** The result-parsing part of Client.search on the fetched [html_content]
    (the page fetch itself is the transport collaborator). *)
Definition search_results (html_content : string) (max_results : nat) : list Entry :=
  let st := ([], []) in
  let st := fold_left (search_step max_results) (findall search_p1_at html_content) st in
  let st :=
    match snd st with
    | [] => fold_left (search_step max_results) (findall search_p2_at html_content) st
    | _ => st
    end in
  let st :=
    match snd st with
    | [] => fold_left (thumb_step max_results) (findall thumb_at html_content) st
    | _ => st
    end in
  let st :=
    match snd st with
    | [] => fold_left (id_step max_results) (findall id_at html_content) st
    | _ => st
    end in
  snd st.

(** The link pattern of get_videos_by_category and get_videos_by_tag:
    [href=] and a double quote, the captured [/videos?/(\d+)/(slug)] with a
    slug free of double quotes, and a closing double quote (IGNORECASE). *)
Definition full_link_at (s : string) : option ((string * string * string) * string) :=
  match ci_take ("href=" ++ dq_str) s with
  | Some (_, t) => link_path (fun c => Ascii.eqb c dq) (fun c => Ascii.eqb c dq) t
  | None => None
  end.

Definition full_link_step (max_results : nat) (st : list string * list Entry)
  (m : string * string * string) : list string * list Entry :=
  let '(seen_ids, results) := st in
  let '(full_path, vid, slug) := m in
  if negb (existsb (String.eqb vid) seen_ids) && (List.length results <? max_results)%nat then
    let normalized_path :=
      if startswith full_path "/videos/" then replace_first "/videos/" "/video/" full_path
      else full_path in
    (vid :: seen_ids,
     List.app results [{| video_id := vid; url := ROOT_URL ++ normalized_path;
                    full_path := normalized_path;
                    slug := Some (rstrip_char "/" slug) |}])
  else st.

(** The result-parsing part of Client.get_videos_by_category. *)
Definition category_results (html_content : string) (max_results : nat) : list Entry :=
  snd (fold_left (full_link_step max_results) (findall full_link_at html_content) ([], [])).

(** Client.get_videos_by_tag repeats the code of get_videos_by_category. *)
Definition tag_results (html_content : string) (max_results : nat) : list Entry :=
  snd (fold_left (full_link_step max_results) (findall full_link_at html_content) ([], [])).

End Listing.

(* ------------------------------------------------------------------ *)
(** ** Sample inputs *)
Module Samples.
Import Text PyDict Quality Listing.
Open Scope string_scope.

(** A page whose flashvars give "720p" the URL
    a.mp4, the JSON [sources] list then gives "720p" the URL b.mp4. *)
Definition conflicting_scan : PageScan := {|
  scan_flashvars := Some {| fv_video_url := Some "https://cdn.example/a.mp4";
                            fv_video_url_text := Some "720p";
                            fv_alts := [] |};
  scan_kt_urls := [];
  scan_json := [Some [JDict "720p" "https://cdn.example/b.mp4"]];
  scan_html5 := [];
  scan_quality := [None; None; None; None; None];
  scan_mp4 := [];
  scan_source := None;
  scan_source_alt := None;
  scan_source_generic := None |}.

(** A page where flashvars give "720p", and the 720p
    quality regex and the blanket scan also find URLs. *)
Definition layered_scan : PageScan := {|
  scan_flashvars := Some {| fv_video_url := Some "https://cdn.example/a_720p.mp4";
                            fv_video_url_text := Some "720p";
                            fv_alts := [] |};
  scan_kt_urls := [];
  scan_json := [];
  scan_html5 := [];
  scan_quality := [None; None; Some "https://cdn.example/other_720.mp4"; None;
                   Some "https://cdn.example/c_360.mp4"];
  scan_mp4 := ["https://cdn.example/d_720p.mp4"];
  scan_source := None;
  scan_source_alt := None;
  scan_source_generic := None |}.

(** A listing link as the site writes it: [href="/video/<id>/<slug>"]. *)
Definition listing_link (d slug : string) : string :=
  "href=" ++ dq_str ++ "/video/" ++ d ++ "/" ++ slug ++ dq_str.

(** A listing page: each item is the text before a link, the id and the
    slug of that link; [tail] follows the last link. *)
Definition listing_page (items : list (string * (string * string))) (tail : string)
  : string :=
  fold_right (fun it acc => fst it ++ listing_link (fst (snd it)) (snd (snd it)) ++ acc)
    tail items.

(** No [h] or [H]: no [href=] can start in this text. *)
Definition href_free (f : string) : bool := negb (has_char "h" f || has_char "H" f).

(** A slug as pattern 1 captures it: non-empty and free of quotes. *)
Definition slug_ok (slug : string) : bool :=
  negb (String.eqb slug "") && negb (has_char dq slug) && negb (has_char "'" slug).

Definition item_ids (items : list (string * (string * string))) : list string :=
  map (fun it => fst (snd it)) items.

(** A category page linking one video without a trailing slash. *)
Definition category_sample : string :=
  "<a href=" ++ dq_str ++ "/video/123/slug" ++ dq_str ++ ">x</a>".

(** Four links, the third repeating the id of the first. *)
Definition sample_items : list (string * (string * string)) :=
  [("<ul><li><a ", ("101", "first-clip"));
   (">One</a></li><li><a ", ("202", "second-clip/"));
   (">Two</a></li><li><a ", ("101", "first-clip"));
   (">Again</a></li><li><a ", ("303", "third-clip"))].

Definition sample_tail : string := ">Last</a></li></ul>".

End Samples.

(* ------------------------------------------------------------------ *)
(** ** utils.format_duration (video.duration_formatted) *)
Module Format.
Import Select.
Open Scope string_scope.

(** [f"{n:02d}"]: zero-padded to width two. *)
Definition format02 (n : Z) : string :=
  let s := z_to_string n in
  if (String.length s <? 2)%nat then "0" ++ s else s.

(** utils.format_duration.  [minutes] and [secs] are below 60, so only
    the conversion of [hours] can raise. *)
Definition format_duration (seconds : Z) : PyResult string :=
  let seconds := if (seconds <? 0)%Z then 0%Z else seconds in
  let hours := (seconds / 3600)%Z in
  let minutes := ((seconds mod 3600) / 60)%Z in
  let secs := (seconds mod 60)%Z in
  if (hours >? 0)%Z then
    py_bind (int_to_str hours) (fun h =>
    Ok (h ++ ":" ++ format02 minutes ++ ":" ++ format02 secs))
  else Ok (z_to_string minutes ++ ":" ++ format02 secs).

End Format.

(* ------------------------------------------------------------------ *)
(** ** utils.sanitize_filename over Unicode code points *)
Module Sanitize.
Import Duration.
Open Scope N_scope.

(** [unsafe_chars]: less-than, greater-than, colon, double quote, slash,
    backslash, bar, question mark, asterisk and NUL. *)
Definition unsafe_chars : ustr := [60; 62; 58; 34; 47; 92; 124; 63; 42; 0].

(** [s.replace(old, new)] for one-character [old] and [new]. *)
Definition replace_char (old new : N) (s : ustr) : ustr :=
  map (fun c => if c =? old then new else c) s.

Fixpoint lstrip_by (p : N -> bool) (s : ustr) : ustr :=
  match s with
  | c :: r => if p c then lstrip_by p r else s
  | [] => []
  end.

(** [s.strip(chars)]. *)
Definition strip_chars (chars : ustr) (s : ustr) : ustr :=
  let p := fun c => existsb (N.eqb c) chars in
  rev (lstrip_by p (rev (lstrip_by p s))).

(** [s[:k]], with Python's meaning of a negative [k]. *)
Definition slice_to (s : ustr) (k : Z) : ustr :=
  if (0 <=? k)%Z then firstn (Z.to_nat k) s
  else firstn (Z.to_nat (Z.of_nat (List.length s) + k)) s.

(** utils.sanitize_filename. *)
Definition sanitize_filename (filename : ustr) (max_length : Z) : ustr :=
  match filename with
  | [] => u "video"
  | _ =>
    let filename := fold_left (fun f ch => replace_char ch 95 f) unsafe_chars filename in
    let filename := strip_chars [32; 46] filename in
    let filename :=
      if (max_length <? Z.of_nat (List.length filename))%Z then slice_to filename max_length
      else filename in
    match filename with
    | [] => u "video"
    | _ => filename
    end
  end.

End Sanitize.

(* ------------------------------------------------------------------ *)
(** ** main._cache_search_results *)
Module Cache.
Import Text PyDict Listing.
Open Scope string_scope.

(** [s.endswith(suffix)]. *)
Definition endswith (s suffix : string) : bool :=
  (String.length suffix <=? String.length s)%nat
  && String.eqb (substring (String.length s - String.length suffix) (String.length suffix) s)
       suffix.

(** The loop body of _cache_search_results for one result dict. *)
Definition cache_one (cache : dict) (result : Entry) : dict :=
  let video_id := video_id result in
  let full_url := url result in
  if negb (String.eqb video_id "") && negb (String.eqb full_url "") then
    if has_char "/" full_url && negb (endswith full_url ("/" ++ video_id ++ "/")) then
      set video_id full_url cache
    else if negb (mem video_id cache) then set video_id full_url cache
    else cache
  else cache.

(** main._cache_search_results on the plugin's [_video_url_cache]. *)
Definition cache_search_results (cache : dict) (results : list Entry) : dict :=
  fold_left cache_one results cache.

End Cache.

(* ================================================================== *)
(** * Proofs *)

(** ** Lemmas on the string operations *)
Module TextFacts.
Import Text.
Open Scope string_scope.

Lemma list_ascii_app (s t : string) :
  list_ascii_of_string (s ++ t) = (list_ascii_of_string s ++ list_ascii_of_string t)%list.
Proof. induction s as [|c s IH]; simpl; [reflexivity | now rewrite IH]. Qed.

Lemma string_of_list_app (l m : list ascii) :
  string_of_list_ascii (l ++ m)%list = string_of_list_ascii l ++ string_of_list_ascii m.
Proof. induction l as [|c l IH]; simpl; [reflexivity | now rewrite IH]. Qed.

Lemma rev_str_involutive (s : string) : rev_str (rev_str s) = s.
Proof.
  unfold rev_str. rewrite list_ascii_of_string_of_list_ascii, rev_involutive.
  apply string_of_list_ascii_of_string.
Qed.

Lemma rev_str_snoc (s : string) (c : ascii) :
  rev_str (s ++ String c EmptyString) = String c (rev_str s).
Proof.
  unfold rev_str. rewrite list_ascii_app. simpl. rewrite rev_app_distr. reflexivity.
Qed.

Lemma lstrip_by_stop (p : ascii -> bool) (c : ascii) (r : string) :
  p c = false -> lstrip_by p (String c r) = String c r.
Proof. intros H. simpl. now rewrite H. Qed.

Lemma lstrip_by_none (p : ascii -> bool) (s : string) :
  forallb (fun c => negb (p c)) (list_ascii_of_string s) = true ->
  lstrip_by p s = s.
Proof.
  destruct s as [|c r]; simpl; [reflexivity|].
  intros H. apply andb_prop in H as [H _].
  destruct (p c); [discriminate | reflexivity].
Qed.

Lemma rstrip_by_none (p : ascii -> bool) (s : string) :
  forallb (fun c => negb (p c)) (list_ascii_of_string s) = true ->
  rstrip_by p s = s.
Proof.
  intros H. unfold rstrip_by. rewrite lstrip_by_none; [apply rev_str_involutive|].
  unfold rev_str. rewrite list_ascii_of_string_of_list_ascii.
  rewrite forallb_forall in *. intros x Hx. apply H. now apply in_rev.
Qed.

Lemma rstrip_by_snoc (p : ascii -> bool) (s : string) (c : ascii) :
  p c = false -> rstrip_by p (s ++ String c EmptyString) = s ++ String c EmptyString.
Proof.
  intros H. unfold rstrip_by. rewrite rev_str_snoc, lstrip_by_stop by exact H.
  rewrite <- rev_str_snoc. apply rev_str_involutive.
Qed.

(** A property of single characters, checked on all 256 of them. *)
Ltac ascii_cases c :=
  destruct c as [[] [] [] [] [] [] [] []]; vm_compute;
  first [reflexivity | intros; discriminate | intros _; reflexivity].

Lemma digit_not_space (c : ascii) : is_digit_char c = true -> is_space c = false.
Proof. ascii_cases c. Qed.

Lemma isdigit_char_not_space (c : ascii) : isdigit_char c = true -> is_space c = false.
Proof. ascii_cases c. Qed.

Lemma digit_isdigit_char (c : ascii) : is_digit_char c = true -> isdigit_char c = true.
Proof. unfold isdigit_char. intros ->. reflexivity. Qed.

Lemma digit_not_slash (c : ascii) : is_digit_char c = true -> Ascii.eqb c "/" = false.
Proof.
  intros H. destruct (Ascii.eqb_spec c "/") as [->|]; [discriminate | reflexivity].
Qed.

Lemma digits_isdigit_chars (l : list ascii) :
  forallb is_digit_char l = true -> forallb isdigit_char l = true.
Proof.
  rewrite !forallb_forall. intros H x Hx. apply digit_isdigit_char, H, Hx.
Qed.

Lemma isdigit_char_not_slash (c : ascii) : isdigit_char c = true -> Ascii.eqb c "/" = false.
Proof.
  intros H. destruct (Ascii.eqb_spec c "/") as [->|]; [discriminate | reflexivity].
Qed.

Lemma isdigit_nonempty (d : string) : isdigit d = true -> d <> EmptyString.
Proof. destruct d; [discriminate | congruence]. Qed.

Lemma isdigit_chars (d : string) :
  isdigit d = true -> forallb isdigit_char (list_ascii_of_string d) = true.
Proof. destruct d; [discriminate | exact (fun H => H)]. Qed.

Lemma isdigit_no_space (d : string) :
  isdigit d = true ->
  forallb (fun c => negb (is_space c)) (list_ascii_of_string d) = true.
Proof.
  intros H. apply isdigit_chars in H. rewrite forallb_forall in *.
  intros x Hx. rewrite isdigit_char_not_space by auto. reflexivity.
Qed.

Lemma strip_digits (d : string) : isdigit d = true -> strip d = d.
Proof.
  intros H. unfold strip. rewrite lstrip_by_none by now apply isdigit_no_space.
  apply rstrip_by_none. now apply isdigit_no_space.
Qed.

Lemma append_assoc (s t v : string) : s ++ (t ++ v) = (s ++ t) ++ v.
Proof. induction s as [|c s IH]; simpl; [reflexivity | now rewrite IH]. Qed.

Lemma length_app (s t : string) : String.length (s ++ t) = (String.length s + String.length t)%nat.
Proof. induction s; simpl; auto. Qed.

Lemma app_longer_neq (s t : string) : t <> EmptyString -> (s ++ t =? s) = false.
Proof.
  intros Ht. apply String.eqb_neq. intros H. apply (f_equal String.length) in H.
  rewrite length_app in H. destruct t; [contradiction | simpl in H; lia].
Qed.

Lemma app_longer_neq' (s t : string) : t <> EmptyString -> (s =? s ++ t) = false.
Proof. intros Ht. rewrite String.eqb_sym. now apply app_longer_neq. Qed.

End TextFacts.

(** ** URL candidates *)
Module UrlProofs.
Import Text Urls TextFacts.
Open Scope string_scope.

Lemma split_slash_digits (d t : string) :
  forallb isdigit_char (list_ascii_of_string d) = true ->
  split_slash_once (d ++ String "/" t) = Some (d, t).
Proof.
  induction d as [|c d IH]; simpl; [reflexivity|].
  intros H. apply andb_prop in H as [Hc Hd].
  rewrite isdigit_char_not_slash by exact Hc. now rewrite IH.
Qed.

Lemma extract_video_id_digits (d : string) :
  isdigit d = true -> extract_video_id d = Some d.
Proof.
  intros H. unfold extract_video_id.
  destruct (String.eqb_spec d "") as [E|_]; [now apply isdigit_nonempty in H|].
  rewrite strip_digits, H by exact H. reflexivity.
Qed.

Lemma rstrip_slash_no_slash (slug : string) :
  has_char "/" slug = false -> rstrip_char "/" (slug ++ "/") = slug.
Proof.
  intros H. unfold rstrip_char, rstrip_by. rewrite rev_str_snoc. simpl.
  rewrite lstrip_by_none; [apply rev_str_involutive|].
  unfold rev_str. rewrite list_ascii_of_string_of_list_ascii.
  unfold has_char in H. apply forallb_forall. intros x Hx. apply in_rev in Hx.
  destruct (Ascii.eqb_spec x "/") as [->|]; [|reflexivity].
  exfalso. assert (existsb (Ascii.eqb "/") (list_ascii_of_string slug) = true) as E.
  { apply existsb_exists. exists "/"%char. split; [exact Hx | apply Ascii.eqb_refl]. }
  congruence.
Qed.

Lemma strip_id_slug (d slug : string) :
  isdigit d = true -> strip (d ++ "/" ++ slug ++ "/") = d ++ "/" ++ slug ++ "/".
Proof.
  intros H. destruct d as [|c d']; [discriminate|].
  pose proof (isdigit_chars _ H) as Hc. simpl in Hc. apply andb_prop in Hc as [Hc _].
  assert (E : String c d' ++ "/" ++ slug ++ "/"
              = String c ((d' ++ "/" ++ slug) ++ String "/" EmptyString)).
  { simpl. f_equal. rewrite <- !append_assoc. reflexivity. }
  rewrite E. unfold strip.
  rewrite lstrip_by_stop by (apply isdigit_char_not_space; exact Hc).
  change (String c ((d' ++ "/" ++ slug) ++ String "/" EmptyString))
    with ((String c d' ++ "/" ++ slug) ++ String "/" EmptyString).
  apply rstrip_by_snoc. reflexivity.
Qed.

(** C5: an identifier of the form ["<digits>/<slug>/"] (as the command
    layer receives it and hands it, split into id and known full URL, to
    the candidate generator) yields a candidate list whose first URL is
    origin + "/video/" + digits + "/" + slug + "/". *)
Theorem id_slug_first_candidate (cache : list (string * string)) (d slug : string)
  (Hd : isdigit d = true) (Hs : has_char "/" slug = false) :
  exists vs, candidates_for cache (d ++ "/" ++ slug ++ "/") = Some vs /\
             hd_error vs = Some (ROOT_URL ++ "/video/" ++ d ++ "/" ++ slug ++ "/").
Proof.
  unfold candidates_for, parse_video_identifier.
  rewrite strip_id_slug by exact Hd.
  change (d ++ "/" ++ slug ++ "/") with (d ++ String "/" (slug ++ "/")).
  rewrite split_slash_digits by now apply isdigit_chars.
  rewrite rstrip_slash_no_slash by exact Hs.
  unfold url_candidates. rewrite extract_video_id_digits by exact Hd.
  eexists. split; [reflexivity|].
  unfold get_url_variants. simpl. reflexivity.
Qed.

(** C7: a bare-digit identifier with no known full path yields exactly the
    four id-only fallbacks, singular then plural, with and then without the
    trailing slash. *)
Theorem bare_id_candidates (d : string) (Hd : isdigit d = true) :
  url_candidates d None =
  Some [ROOT_URL ++ "/video/" ++ d ++ "/"; ROOT_URL ++ "/videos/" ++ d ++ "/";
        ROOT_URL ++ "/video/" ++ d; ROOT_URL ++ "/videos/" ++ d].
Proof.
  unfold url_candidates. rewrite extract_video_id_digits by exact Hd.
  unfold get_url_variants, dedup. simpl.
  rewrite !app_longer_neq' by discriminate.
  reflexivity.
Qed.

Lemma id_slug_first_candidate_witness :
  isdigit "4167287" = true /\ has_char "/" "video-title" = false /\
  exists vs, candidates_for [] ("4167287" ++ "/" ++ "video-title" ++ "/") = Some vs /\
    hd_error vs = Some (ROOT_URL ++ "/video/" ++ "4167287" ++ "/" ++ "video-title" ++ "/").
Proof.
  split; [reflexivity|]. split; [reflexivity|].
  apply (id_slug_first_candidate [] "4167287" "video-title"); reflexivity.
Defined.

Lemma bare_id_candidates_witness :
  isdigit "42" = true /\
  url_candidates "42" None =
  Some [ROOT_URL ++ "/video/" ++ "42" ++ "/"; ROOT_URL ++ "/videos/" ++ "42" ++ "/";
        ROOT_URL ++ "/video/" ++ "42"; ROOT_URL ++ "/videos/" ++ "42"].
Proof. split; [reflexivity|]. apply (bare_id_candidates "42"). reflexivity. Defined.

End UrlProofs.

(** ** Duration parsing *)
Module DurationProofs.
Import Duration.
Open Scope string_scope.

(** C10 (defect): on the one-character string "²" (U+00B2, SUPERSCRIPT
    TWO) [str.isdigit] holds, so [parse_duration] reaches [int(...)], which
    raises [ValueError]: the parser is not total. *)
Theorem parse_duration_superscript_raises :
  isdigit [178%N] = true /\ parse_duration [178%N] = ValueError.
Proof. split; vm_compute; reflexivity. Qed.

End DurationProofs.

(** ** Page fetching *)
Module FetchProofs.
Import Text Fetch.
Open Scope string_scope.





End FetchProofs.

(** ** Rating *)
Module RatingProofs.
Import Rating.

Lemma round_half_even_div_nonneg (p q : Z) :
  (0 < q)%Z -> (0 <= p)%Z -> (0 <= round_half_even_div p q)%Z.
Proof.
  intros Hq Hp. unfold round_half_even_div.
  assert (Hd : (0 <= p / q)%Z) by (apply Z.div_pos; lia).
  destruct (2 * (p mod q) <? q)%Z; [lia|].
  destruct (q <? 2 * (p mod q))%Z; [lia|].
  destruct (Z.even (p / q)); lia.
Qed.

(** Rounding to an integer never passes an integer bound. *)
Lemma round_half_even_div_le (p q K : Z) :
  (0 < q)%Z -> (p <= K * q)%Z -> (round_half_even_div p q <= K)%Z.
Proof.
  intros Hq Hp. unfold round_half_even_div.
  pose proof (Z.div_mod p q ltac:(lia)) as Hdm.
  pose proof (Z.mod_pos_bound p q Hq) as Hr.
  assert (Hd : (p / q <= K)%Z) by (apply Z.div_le_upper_bound; lia).
  set (d := (p / q)%Z) in *. set (r := (p mod q)%Z) in *.
  destruct (Z.ltb_spec (2 * r) q); [lia|].
  assert (Hd2 : (d < K)%Z) by nia.
  destruct (Z.ltb_spec q (2 * r)); [lia|].
  destruct (Z.even d); lia.
Qed.

Lemma round_mag_zero (x : Q) : Qnum x = 0%Z -> round_mag x = Some 0%Q.
Proof. destruct x as [n d]; simpl; intros ->; reflexivity. Qed.

(** Rounding to binary64 keeps a value below an integer bound [N] under
    [2 ^ 52] (such an [N] is a float), and gives a non-negative result. *)
Lemma round_mag_le (N : Z) (x : Q) :
  (0 < N < 2 ^ 52)%Z -> (x <= inject_Z N)%Q ->
  exists v, round_mag x = Some v /\ (0 <= v)%Q /\ (v <= inject_Z N)%Q.
Proof.
  intros HN Hx. destruct x as [n d]. unfold Qle in Hx; simpl in Hx.
  unfold round_mag, pow2; cbv zeta; simpl Qnum; simpl Qden.
  destruct (Z.leb_spec n 0) as [Hn|Hn].
  { exists 0%Q. split; [reflexivity|]. split; unfold Qle; simpl; lia. }
  set (e0 := (Z.log2 n - Z.log2 (Z.pos d))%Z).
  assert (Hlog : (Z.log2 n <= Z.log2 N + Z.log2 (Z.pos d) + 1)%Z).
  { transitivity (Z.log2 (N * Z.pos d)).
    - apply Z.log2_le_mono; lia.
    - apply Z.log2_mul_above; lia. }
  assert (HN2 : (Z.log2 N < 52)%Z) by (apply Z.log2_lt_pow2; lia).
  assert (He0 : (e0 <= 52)%Z) by (unfold e0; lia).
  set (lg := if lt_pow2 n (Z.pos d) e0 then (e0 - 1)%Z else e0).
  assert (Hlg : (lg <= 51)%Z).
  { unfold lg. destruct (lt_pow2 n (Z.pos d) e0) eqn:Elt; [lia|].
    unfold lt_pow2 in Elt.
    destruct (Z.leb_spec 0 e0); [|lia].
    apply Z.ltb_ge in Elt.
    destruct (Z.eq_dec e0 52) as [E|E]; [|lia].
    rewrite E in Elt.
    assert (P : (2 ^ 52 = 4503599627370496)%Z) by reflexivity.
    rewrite P in Elt, HN. nia. }
  set (e := Z.max (lg - 52) (-1074)).
  assert (He : (e < 0)%Z) by (unfold e; lia).
  destruct (Z.leb_spec 0 e) as [He'|_]; [lia|].
  simpl andb.
  assert (HP : (0 < 2 ^ (- e))%Z) by (apply Z.pow_pos_nonneg; lia).
  set (P := (2 ^ (- e))%Z) in *.
  pose proof (round_half_even_div_nonneg (n * P) (Z.pos d) ltac:(lia) ltac:(nia)) as M0.
  pose proof (round_half_even_div_le (n * P) (Z.pos d) (N * P) ltac:(lia) ltac:(nia)) as M1.
  set (m := round_half_even_div (n * P) (Z.pos d)) in *.
  eexists. split; [reflexivity|].
  unfold Qle; simpl. rewrite Z2Pos.id by exact HP. split; nia.
Qed.

(** C4 refuted: with no likes and five dislikes the rating is 0 although
    likes + dislikes is 5. *)
Lemma rating_zero_with_votes :
  rating 0 5 = Some (Finite false 0%Q) /\ (0 + 5 <> 0)%Z.
Proof. split; [vm_compute; reflexivity | discriminate]. Qed.

(** The rating is computed in floats, not in exact decimals: [23 / 160 * 100]
    is the float [14.374999999999998], which [round(_, 2)] takes to the
    float nearest 14.37, whereas the exact quotient 14.375 rounds half to
    even to 14.38. *)
Lemma rating_23_137 :
  rating 23 137 = Some (Finite false (Qmake 8089590830664253 562949953421312)) /\
  round_mag (Qmake 1437 100) = Some (Qmake 8089590830664253 562949953421312) /\
  round_half_even_div (23 * 10000) (23 + 137) = 1438%Z.
Proof. vm_compute. repeat split. Qed.

(** C4 as the code does it: for non-negative counts, [rating] computes
    [round((likes / (likes + dislikes)) * 100, 2)] in binary64 without
    raising; the result is a non-negative float at most 100, the float
    nearest [k / 100] for a whole number [0 <= k <= 10000] of hundredths;
    it is 0 when there are no votes and, more generally, whenever there are
    no likes. *)
Theorem rating_bounds_and_zero (likes dislikes : Z)
  (Hl : (0 <= likes)%Z) (Hd : (0 <= dislikes)%Z) :
  exists v, rating likes dislikes = Some (Finite false v) /\
    (0 <= v <= 100)%Q /\
    (exists k, (0 <= k <= 10000)%Z /\ round_mag (Qmake k 100) = Some v) /\
    (likes = 0%Z \/ (likes + dislikes)%Z = 0%Z -> v == 0)%Q.
Proof.
  unfold rating.
  destruct (Z.eqb_spec (likes + dislikes) 0) as [E|E].
  { exists 0%Q. split; [reflexivity|].
    split; [split; unfold Qle; simpl; lia|].
    split; [exists 0%Z; split; [lia | reflexivity]|].
    intros _; reflexivity. }
  assert (Ht : (0 < likes + dislikes)%Z) by lia.
  assert (B1 : (0 < 1 < 2 ^ 52)%Z) by (split; [lia | now vm_compute]).
  assert (B100 : (0 < 100 < 2 ^ 52)%Z) by (split; [lia | now vm_compute]).
  unfold int_truediv.
  replace (xorb (likes <? 0) (likes + dislikes <? 0))%Z with false
    by (destruct (Z.ltb_spec likes 0), (Z.ltb_spec (likes + dislikes) 0);
        (lia || reflexivity)).
  rewrite (Z.abs_eq likes Hl), (Z.abs_eq (likes + dislikes)) by lia.
  destruct (round_mag_le 1 (Qmake likes (Z.to_pos (likes + dislikes))) B1)
    as (q1 & E1 & Q10 & Q11).
  { unfold Qle; simpl. rewrite Z2Pos.id by lia. lia. }
  rewrite E1. unfold mul100.
  destruct (round_mag_le 100 (q1 * inject_Z 100) B100) as (q2 & E2 & Q20 & Q21).
  { unfold Qle in *; simpl in *. rewrite Pos.mul_1_r. lia. }
  rewrite E2. unfold round2.
  unfold Qle in Q20, Q21; simpl in Q20, Q21.
  pose proof (round_half_even_div_nonneg (Qnum q2 * 100) (Z.pos (Qden q2))
                ltac:(lia) ltac:(lia)) as K0.
  pose proof (round_half_even_div_le (Qnum q2 * 100) (Z.pos (Qden q2)) 10000
                ltac:(lia) ltac:(lia)) as K1.
  set (k := round_half_even_div (Qnum q2 * 100) (Z.pos (Qden q2))) in *.
  destruct (round_mag_le 100 (Qmake k 100) B100) as (v & E3 & V0 & V1).
  { unfold Qle; simpl. lia. }
  rewrite E3. exists v. split; [reflexivity|].
  split; [split; assumption|].
  split; [exists k; split; [lia | exact E3]|].
  intros [->|H]; [|lia].
  rewrite round_mag_zero in E1 by reflexivity. inversion E1; subst q1.
  rewrite round_mag_zero in E2 by reflexivity. inversion E2; subst q2.
  rewrite round_mag_zero in E3 by reflexivity. inversion E3; subst v.
  reflexivity.
Qed.

Lemma rating_bounds_and_zero_witness :
  (0 <= 3)%Z /\ (0 <= 1)%Z /\
  exists v, rating 3 1 = Some (Finite false v) /\
    (0 <= v <= 100)%Q /\
    (exists k, (0 <= k <= 10000)%Z /\ round_mag (Qmake k 100) = Some v) /\
    (3%Z = 0%Z \/ (3 + 1)%Z = 0%Z -> v == 0)%Q.
Proof.
  split; [lia|]. split; [lia|].
  apply (rating_bounds_and_zero 3 1); lia.
Defined.

End RatingProofs.

(** ** Quality maps and quality selection *)
Module DictFacts.
Import PyDict.
Open Scope string_scope.

Lemma mem_true_iff (k : string) (m : dict) : mem k m = true <-> In k (keys m).
Proof.
  unfold mem. rewrite existsb_exists. split.
  - intros [x [Hx E]]. apply String.eqb_eq in E. now subst.
  - intros H. exists k. split; [exact H | apply String.eqb_refl].
Qed.

Lemma get_some_in (k v : string) (m : dict) : get k m = Some v -> In (k, v) m.
Proof.
  induction m as [|[k' v'] r IH]; simpl; [discriminate|].
  destruct (String.eqb_spec k k') as [->|]; [intros [= ->]; now left|].
  intros H. right. now apply IH.
Qed.


Lemma in_keys_get (k : string) (m : dict) :
  In k (keys m) -> exists v, get k m = Some v.
Proof.
  induction m as [|[k' v'] r IH]; simpl; [intros []|].
  destruct (String.eqb_spec k k') as [->|Hne]; [eauto|].
  intros [E|H]; [congruence | now apply IH].
Qed.

Lemma keys_set (k v : string) (m : dict) :
  keys (set k v m) = if mem k m then keys m else (keys m ++ [k])%list.
Proof.
  unfold mem. induction m as [|[k' v'] r IH]; simpl; [reflexivity|].
  destruct (String.eqb_spec k k') as [->|]; simpl; [reflexivity|].
  unfold keys in *. rewrite IH. destruct (existsb (String.eqb k) (map fst r)); reflexivity.
Qed.

(** [m[k] = v] keeps the keys of a dict distinct. *)
Lemma set_nodup (k v : string) (m : dict) : NoDup (keys m) -> NoDup (keys (set k v m)).
Proof.
  intros H. rewrite keys_set. destruct (mem k m) eqn:E; [exact H|].
  apply NoDup_app; [exact H | constructor; [intros []|constructor] |].
  intros x Hx [<-|[]]. apply mem_true_iff in Hx. congruence.
Qed.

End DictFacts.

Module SelectProofs.
Import Text PyDict Select DictFacts.
Open Scope string_scope.


Lemma in_insert_desc (x y : string) (l : list string) :
  In x (insert_desc y l) <-> In x (y :: l).
Proof.
  induction l as [|z r IH]; simpl; [tauto|].
  destruct (get_resolution z <? get_resolution y)%Z; simpl; [tauto|].
  rewrite IH. simpl. tauto.
Qed.

Lemma in_fold_insert (x : string) (l acc : list string) :
  In x (fold_left (fun acc y => insert_desc y acc) l acc) <-> In x acc \/ In x l.
Proof.
  revert acc. induction l as [|y r IH]; intros acc; simpl; [tauto|].
  rewrite IH, in_insert_desc. simpl. tauto.
Qed.

Lemma in_sort_desc (x : string) (l : list string) : In x (sort_desc l) <-> In x l.
Proof. unfold sort_desc. rewrite in_fold_insert. simpl. tauto. Qed.






Lemma last_in (l : list string) (d : string) : l <> [] -> In (last l d) l.
Proof.
  induction l as [|x r IH]; [contradiction|]. intros _.
  destruct r as [|z r']; [now left|].
  change (last (x :: z :: r') d) with (last (z :: r') d).
  right. apply IH. discriminate.
Qed.










End SelectProofs.

(** ** Quality-source map *)
Module QualityProofs.
Import Samples.
Import Text PyDict Clean Quality DictFacts.
Open Scope string_scope.

Lemma get_set_absent (k k' v v' : string) (m : dict) :
  mem k m = false -> get k' m = Some v -> get k' (set k v' m) = Some v.
Proof.
  unfold mem, keys. induction m as [|[k0 v0] r IH]; simpl; [discriminate|].
  intros Hmem Hget. apply orb_false_iff in Hmem as [Hk0 Hr].
  rewrite Hk0. simpl.
  destruct (String.eqb k' k0); [exact Hget|]. now apply IH.
Qed.

Lemma pass_quality_regex_keeps (caps : list (option string)) (m : dict) (k v : string) :
  get k m = Some v -> get k (pass_quality_regex caps m) = Some v.
Proof.
  unfold pass_quality_regex. generalize (combine quality_labels caps) as l.
  intros l. revert m. induction l as [|[q cap] l IH]; intros m Hget; simpl; [exact Hget|].
  apply IH. destruct (mem q m) eqn:Hq; simpl; [exact Hget|].
  destruct cap as [raw|]; [|exact Hget].
  destruct (cleaned raw) as [url|]; [|exact Hget].
  now apply get_set_absent.
Qed.

Lemma pass_mp4_keeps (urls : list string) (m : dict) (k v : string) :
  get k m = Some v -> get k (pass_mp4 urls m) = Some v.
Proof. destruct m; [discriminate | tauto]. Qed.

Lemma pass_generic_keeps (sc : PageScan) (m : dict) (k v : string) :
  get k m = Some v -> get k (pass_generic sc m) = Some v.
Proof. destruct m; [discriminate | tauto]. Qed.

(** C1 refuted: the flashvars pass writes "720p" first, and the later JSON
    [sources] pass overwrites it. *)
Lemma json_pass_overwrites_flashvars :
  get "720p" (pass_flashvars (scan_flashvars conflicting_scan) [])
    = Some "https://cdn.example/a.mp4" /\
  get "720p" (parse_quality_urls conflicting_scan) = Some "https://cdn.example/b.mp4".
Proof. split; vm_compute; reflexivity. Qed.

(** C1 as the code does it: the last passes (quality-specific regexes,
    blanket mp4 scan, generic source regexes) never overwrite a label:
    every label the flashvars, kt_player, JSON [sources] and HTML5
    [<source>] passes leave in the map keeps its URL in the final map.
    Those four passes themselves assign unconditionally, so among them the
    later write wins. *)
Theorem late_passes_first_writer_wins (sc : PageScan) (k v : string)
  (H : get k (structured_passes sc) = Some v) :
  get k (parse_quality_urls sc) = Some v.
Proof.
  unfold parse_quality_urls.
  apply pass_generic_keeps, pass_mp4_keeps, pass_quality_regex_keeps, H.
Qed.

Lemma late_passes_first_writer_wins_witness :
  get "720p" (structured_passes layered_scan) = Some "https://cdn.example/a_720p.mp4" /\
  get "720p" (parse_quality_urls layered_scan) = Some "https://cdn.example/a_720p.mp4".
Proof.
  assert (H : get "720p" (structured_passes layered_scan)
              = Some "https://cdn.example/a_720p.mp4") by (vm_compute; reflexivity).
  split; [exact H | exact (late_passes_first_writer_wins layered_scan _ _ H)].
Defined.

End QualityProofs.

(* ------------------------------------------------------------------ *)
Module ListingProofs.
Import Text TextFacts Listing Samples.
Open Scope string_scope.

Lemma span_digits_app (d t : string) (c : ascii) :
  forallb is_digit_char (list_ascii_of_string d) = true -> is_digit_char c = false ->
  span_digits (d ++ String c t) = (d, String c t).
Proof.
  intros Hd Hc. induction d as [|c' d IH]; simpl.
  - now rewrite Hc.
  - simpl in Hd. apply andb_prop in Hd as [H1 H2]. rewrite H1, IH by exact H2. reflexivity.
Qed.

Lemma firstn_exact {A : Type} (n : nat) (l r : list A) :
  List.length l = n -> firstn n (l ++ r)%list = l.
Proof.
  intros <-. rewrite firstn_app, Nat.sub_diag, firstn_all. apply app_nil_r.
Qed.

Lemma search_step_eq (n : nat) (seen : list string) (res : list Entry) (p d sl : string) :
  isdigit d = true ->
  exists e, video_id e = d /\
    search_step n (seen, res) (p, d, sl)
    = if negb (existsb (String.eqb d) seen) && (List.length res <? n)%nat
      then (d :: seen, (res ++ [e])%list) else (seen, res).
Proof.
  intros Hd. unfold search_step. cbv beta iota zeta.
  assert (E : String.eqb d "" = false)
    by (apply String.eqb_neq, isdigit_nonempty, Hd).
  rewrite E, Hd. cbn [negb andb].
  eexists. split; [ | reflexivity ]. reflexivity.
Qed.

(** The two href loops of Client.search keep, in order, the first
    occurrence of each id not yet seen, up to [n] results. *)
Lemma fold_search_step (n : nat) (ms : list (string * string * string))
  (seen : list string) (res : list Entry) :
  Forall (fun m => isdigit (snd (fst m)) = true) ms ->
  (List.length res <= n)%nat ->
  map video_id (snd (fold_left (search_step n) ms (seen, res)))
  = firstn n (map video_id res ++ dedup_acc seen (map (fun m => snd (fst m)) ms))%list.
Proof.
  revert seen res.
  induction ms as [|[[p d] sl] ms IH]; intros seen res Hd Hn.
  - simpl. rewrite app_nil_r, firstn_all2 by (rewrite length_map; lia). reflexivity.
  - inversion Hd as [|? ? Hd1 Hd2]; subst. simpl in Hd1.
    destruct (search_step_eq n seen res p d sl Hd1) as [e [He Es]].
    cbn [fold_left map dedup_acc snd fst]. rewrite Es.
    destruct (existsb (String.eqb d) seen) eqn:Eseen; cbn [negb andb].
    + apply IH; assumption.
    + destruct (Nat.ltb_spec (List.length res) n) as [Hlt|Hge].
      * rewrite IH by (assumption || (rewrite List.length_app; simpl; lia)).
        rewrite map_app, <- app_assoc. simpl. rewrite He. reflexivity.
      * rewrite IH by assumption.
        rewrite !firstn_exact by (rewrite length_map; lia). reflexivity.
Qed.

Lemma dedup_acc_fresh (seen l : list string) (x : string) :
  In x (dedup_acc seen l) -> existsb (String.eqb x) seen = false.
Proof.
  revert seen. induction l as [|v l IH]; intros seen; simpl; [tauto|].
  destruct (existsb (String.eqb v) seen) eqn:E; [apply IH|].
  intros [<-|H]; [exact E|].
  apply IH in H. simpl in H. apply orb_false_iff in H as [_ H]. exact H.
Qed.

Lemma dedup_acc_nodup (seen l : list string) : NoDup (dedup_acc seen l).
Proof.
  revert seen. induction l as [|v l IH]; intros seen; simpl; [constructor|].
  destruct (existsb (String.eqb v) seen); [apply IH|].
  constructor; [|apply IH].
  intros H. apply dedup_acc_fresh in H. simpl in H.
  rewrite String.eqb_refl in H. discriminate.
Qed.

Lemma nodup_firstn {A : Type} (n : nat) (l : list A) : NoDup l -> NoDup (firstn n l).
Proof.
  intros H. rewrite <- (firstn_skipn n l) in H. exact (NoDup_app_remove_r _ _ H).
Qed.

(** C6 fails for categories and tags: a link without a trailing slash
    keeps it missing in get_videos_by_category and get_videos_by_tag,
    while Client.search adds the slash to the same link. *)
Theorem category_path_without_trailing_slash :
  map full_path (category_results category_sample 20) = ["/video/123/slug"] /\
  map full_path (tag_results category_sample 20) = ["/video/123/slug"] /\
  map full_path (search_results category_sample 20) = ["/video/123/slug/"].
Proof. vm_compute. split; [|split]; reflexivity. Qed.

End ListingProofs.

(* ------------------------------------------------------------------ *)
(** ** utils.format_duration and utils.parse_duration *)
Module FormatProofs.
Import Duration Select Format.
Open Scope string_scope.

(** The value of a string of decimal digits. *)
Fixpoint digits_value (acc : Z) (s : ustr) : Z :=
  match s with
  | [] => acc
  | c :: r =>
      match decimal_value c with
      | Some v => digits_value (acc * 10 + Z.of_N v)%Z r
      | None => digits_value acc r
      end
  end.

Lemma of_uint_digit (l : Decimal.uint) (k : N) (dk : Decimal.uint -> Decimal.uint)
  (Hk : forall l', DecimalPos.Unsigned.of_lu (Decimal.revapp l' (dk Decimal.Nil))
                   = (DecimalPos.Unsigned.of_lu (Decimal.rev l') + k * 10 ^ DecimalPos.Unsigned.usize l')%N)
  (Hrev : Decimal.rev (dk l) = Decimal.revapp l (dk Decimal.Nil)) :
  Z.of_uint (dk l) = (Z.of_N k * 10 ^ Z.of_N (DecimalPos.Unsigned.usize l) + Z.of_uint l)%Z.
Proof.
  unfold Z.of_uint. rewrite !DecimalPos.Unsigned.of_uint_alt, Hrev, Hk.
  rewrite N2Z.inj_add, N2Z.inj_mul, N2Z.inj_pow. simpl Z.of_N at 2. lia.
Qed.

Lemma digits_value_uint (d : Decimal.uint) (acc : Z) :
  digits_value acc (u (NilEmpty.string_of_uint d))
  = (acc * 10 ^ Z.of_N (DecimalPos.Unsigned.usize d) + Z.of_uint d)%Z.
Proof.
  revert acc; induction d; intros acc;
  [ cbn; ring | .. ];
  cbn [NilEmpty.string_of_uint u list_ascii_of_string map digits_value];
  unfold u in IHd;
  (erewrite of_uint_digit; [ | intros l'; rewrite DecimalPos.Unsigned.of_lu_revapp; reflexivity | reflexivity ]);
  cbn [DecimalPos.Unsigned.usize]; rewrite N2Z.inj_succ, Z.pow_succ_r by lia;
  simpl (DecimalPos.Unsigned.of_lu _);
  match goal with
  | |- context [decimal_value ?c] =>
      let v := eval vm_compute in (decimal_value c) in change (decimal_value c) with v
  end;
  cbv iota beta; rewrite IHd; simpl Z.of_N; ring.
Qed.

Lemma z_to_string_nonneg (n : Z) : (0 <= n)%Z ->
  exists d, z_to_string n = NilEmpty.string_of_uint d /\ d <> Decimal.Nil /\ Z.of_uint d = n.
Proof.
  intros Hn. unfold z_to_string.
  destruct n as [|p|p].
  - exists (Decimal.D0 Decimal.Nil). split; [ reflexivity | split; [ discriminate | reflexivity ] ].
  - exists (Pos.to_uint p). split; [ reflexivity | split ].
    + apply DecimalPos.Unsigned.to_uint_nonnil.
    + unfold Z.of_uint. rewrite DecimalPos.Unsigned.of_to. reflexivity.
  - lia.
Qed.

Definition all_decimal (x : ustr) : Prop := Forall (fun c => is_decimal c = true) x.

Lemma uint_all_decimal (d : Decimal.uint) : all_decimal (u (NilEmpty.string_of_uint d)).
Proof.
  unfold all_decimal, u. induction d; cbn [NilEmpty.string_of_uint list_ascii_of_string map];
  try constructor; auto.
Qed.

Lemma u_nonempty (s : string) : s <> EmptyString -> u s <> [].
Proof. destruct s; [ congruence | discriminate ]. Qed.

Lemma u_app (s t : string) : u (s ++ t) = (u s ++ u t)%list.
Proof. unfold u. rewrite TextFacts.list_ascii_app, map_app. reflexivity. Qed.

Lemma u_colon (s : string) : u (String ":" s) = 58%N :: u s.
Proof. reflexivity. Qed.

Lemma length_u (s : string) : List.length (u s) = String.length s.
Proof. unfold u. rewrite length_map. induction s as [|c s IH]; simpl; congruence. Qed.

Lemma length_u_uint (d : Decimal.uint) :
  List.length (u (NilEmpty.string_of_uint d)) = N.to_nat (DecimalPos.Unsigned.usize d).
Proof.
  rewrite length_u.
  induction d; cbn [NilEmpty.string_of_uint String.length DecimalPos.Unsigned.usize];
    [ reflexivity | .. ]; rewrite IHd, N2Nat.inj_succ; reflexivity.
Qed.

(** The rendering of a non-negative int: non-empty decimal digits whose
    value is the int. *)
Lemma zstr_digits (n : Z) : (0 <= n)%Z ->
  all_decimal (u (z_to_string n)) /\ u (z_to_string n) <> [] /\
  digits_value 0 (u (z_to_string n)) = n.
Proof.
  intros Hn. destruct (z_to_string_nonneg n Hn) as (d & E & Hd & V). rewrite E.
  split; [ apply uint_all_decimal | split ].
  - destruct d; cbn; congruence.
  - rewrite digits_value_uint. lia.
Qed.

(** A decimal numeral without leading zero. *)
Definition lead_nonzero (d : Decimal.uint) : Prop :=
  match d with
  | Decimal.Nil | Decimal.D0 _ => False
  | _ => True
  end.

Lemma to_uint_lead (p : positive) : lead_nonzero (Pos.to_uint p).
Proof.
  pose proof (DecimalPos.Unsigned.to_of (Pos.to_uint p)) as H.
  rewrite DecimalPos.Unsigned.of_to in H. cbn [N.to_uint] in H.
  pose proof (DecimalPos.Unsigned.to_uint_nonzero p) as Hz.
  pose proof (DecimalPos.Unsigned.to_uint_nonnil p) as Hn.
  destruct (Pos.to_uint p) as [|r|r|r|r|r|r|r|r|r|r]; cbn; auto.
  unfold Decimal.unorm in H. cbn [Decimal.nzhead] in H.
  destruct (Decimal.nzhead r) eqn:E; try discriminate H.
  - exact (Hz H).
  - injection H as <-. apply (f_equal Decimal.nb_digits) in E.
    pose proof (DecimalFacts.nb_digits_nzhead r). cbn [Decimal.nb_digits] in E. lia.
Qed.

Lemma uint_lead_value (d : Decimal.uint) : lead_nonzero d ->
  (10 ^ (Z.of_N (DecimalPos.Unsigned.usize d) - 1) <= Z.of_uint d)%Z.
Proof.
  intros H. destruct d as [|l|l|l|l|l|l|l|l|l|l]; try destruct H;
  (erewrite of_uint_digit; [ | intros l'; rewrite DecimalPos.Unsigned.of_lu_revapp; reflexivity | reflexivity ]);
  cbn [DecimalPos.Unsigned.usize]; rewrite N2Z.inj_succ;
  replace (Z.succ (Z.of_N (DecimalPos.Unsigned.usize l)) - 1)%Z
    with (Z.of_N (DecimalPos.Unsigned.usize l)) by lia;
  simpl (DecimalPos.Unsigned.of_lu _); simpl Z.of_N;
  assert (0 <= Z.of_uint l)%Z by (unfold Z.of_uint; lia);
  lia.
Qed.

(** A positive int below [10 ^ k] is written with at most [k] digits. *)
Lemma z_to_string_length (n : Z) (k : nat) :
  (0 < n)%Z -> (n < 10 ^ Z.of_nat k)%Z -> (List.length (u (z_to_string n)) <= k)%nat.
Proof.
  intros H0 H1. destruct n as [|p|p]; try lia.
  change (z_to_string (Z.pos p)) with (NilEmpty.string_of_uint (Pos.to_uint p)).
  rewrite length_u_uint.
  pose proof (uint_lead_value _ (to_uint_lead p)) as L.
  unfold Z.of_uint in L. rewrite DecimalPos.Unsigned.of_to in L. cbn [Z.of_N] in L.
  set (m := DecimalPos.Unsigned.usize (Pos.to_uint p)) in *.
  destruct (Nat.le_gt_cases (N.to_nat m) k) as [|Hgt]; [assumption|exfalso].
  assert (10 ^ Z.of_nat k <= 10 ^ (Z.of_N m - 1))%Z by (apply Z.pow_le_mono_r; lia).
  lia.
Qed.

Lemma format02_digits (n : Z) : (0 <= n)%Z ->
  all_decimal (u (format02 n)) /\ u (format02 n) <> [] /\
  digits_value 0 (u (format02 n)) = n.
Proof.
  intros Hn. destruct (zstr_digits n Hn) as (A & B & C). unfold format02.
  destruct (String.length (z_to_string n) <? 2)%nat; [ | auto ].
  cbn [u list_ascii_of_string append map] in *. fold (u (z_to_string n)).
  split; [ constructor; [ reflexivity | exact A ] | split; [ discriminate | exact C ] ].
Qed.

Lemma format02_length (n : Z) : (0 <= n < 100)%Z -> (List.length (u (format02 n)) <= 2)%nat.
Proof.
  intros Hn. destruct (Z.eq_dec n 0) as [->|Hn0]; [vm_compute; lia|].
  pose proof (z_to_string_length n 2 ltac:(lia) ltac:(simpl; lia)) as L.
  rewrite length_u in L. unfold format02.
  destruct (Nat.ltb_spec (String.length (z_to_string n)) 2).
  - rewrite length_u. simpl. lia.
  - rewrite length_u. exact L.
Qed.

Lemma span_digits_all (x r : ustr) : all_decimal x ->
  match r with c :: _ => is_decimal c = false | [] => True end ->
  span_digits (x ++ r)%list = (x, r).
Proof.
  intros Hx Hr. induction Hx as [|c x Hc Hx IH]; simpl.
  - destruct r as [|c r]; [ reflexivity | simpl; rewrite Hr; reflexivity ].
  - rewrite Hc, IH. reflexivity.
Qed.

(** The decimal digits, enumerated from [nd_zeros]. *)
Definition nd_chars : list N :=
  flat_map (fun z => map (fun i => z + N.of_nat i)%N (seq 0 10)) nd_zeros.

Lemma decimal_in_nd_chars (c : N) : is_decimal c = true -> In c nd_chars.
Proof.
  unfold is_decimal, decimal_value.
  destruct (find _ nd_zeros) as [z|] eqn:E; [intros _ | discriminate].
  apply find_some in E as [Hz Hc]. apply andb_true_iff in Hc as [H1 H2].
  apply N.leb_le in H1, H2.
  apply in_flat_map. exists z. split; [exact Hz|].
  apply in_map_iff. exists (N.to_nat (c - z)). split.
  - rewrite N2Nat.id. lia.
  - apply in_seq. lia.
Qed.

(** A decimal digit is no space, no colon, and none of the letters P, H,
    M, S under IGNORECASE. *)
Lemma decimal_facts (c : N) : is_decimal c = true ->
  is_space c = false /\ (c =? 58)%N = false /\ ci_letter 80 c = false /\
  ci_letter 72 c = false /\ ci_letter 77 c = false /\ ci_letter 83 c = false.
Proof.
  intros H. apply decimal_in_nd_chars in H.
  assert (A : forallb (fun c => negb (is_space c) && negb (c =? 58)%N
                 && negb (ci_letter 80 c) && negb (ci_letter 72 c)
                 && negb (ci_letter 77 c) && negb (ci_letter 83 c)) nd_chars = true)
    by (vm_compute; reflexivity).
  rewrite forallb_forall in A. specialize (A c H).
  repeat rewrite andb_true_iff in A. rewrite !negb_true_iff in A. tauto.
Qed.

Lemma decimal_not_space (c : N) : is_decimal c = true -> is_space c = false.
Proof. intros H. apply decimal_facts in H. tauto. Qed.

Lemma strip_keep (s : ustr) :
  match s with c :: _ => is_space c = false | [] => True end ->
  match rev s with c :: _ => is_space c = false | [] => True end ->
  strip s = s.
Proof.
  intros H1 H2. unfold strip.
  assert (L : forall t : ustr, match t with c :: _ => is_space c = false | [] => True end ->
                               lstrip t = t).
  { intros [|c t] H; simpl; [ reflexivity | now rewrite H ]. }
  rewrite (L s H1), (L (rev s) H2). apply rev_involutive.
Qed.

Lemma head_decimal_space (x r : ustr) : all_decimal x -> x <> [] ->
  match (x ++ r)%list with c :: _ => is_space c = false | [] => True end.
Proof.
  intros Hx Hne. destruct x as [|c x]; [ congruence | ].
  inversion Hx; subst. simpl. now apply decimal_not_space.
Qed.

Lemma last_decimal_space (r z : ustr) : all_decimal z -> z <> [] ->
  match rev (r ++ z)%list with c :: _ => is_space c = false | [] => True end.
Proof.
  intros Hz Hne. rewrite rev_app_distr.
  destruct (rev z) as [|c t] eqn:E.
  - apply (f_equal (@rev N)) in E. rewrite rev_involutive in E. simpl in E. congruence.
  - simpl. apply decimal_not_space.
    assert (I : In c z) by (apply in_rev; rewrite E; left; reflexivity).
    unfold all_decimal in Hz. rewrite Forall_forall in Hz. auto.
Qed.

Lemma iso_match_digit (x r : ustr) : all_decimal x -> x <> [] ->
  iso_match (x ++ r)%list = None.
Proof.
  intros Hx Hne. destruct x as [|c x]; [ congruence | ]. inversion Hx as [|? ? Hc]; subst.
  apply decimal_facts in Hc as (_ & _ & Hp & _).
  simpl. destruct (x ++ r)%list as [|t rr]; [ reflexivity | ].
  rewrite Hp. reflexivity.
Qed.

Lemma colon_not_decimal : is_decimal 58 = false.
Proof. reflexivity. Qed.

Lemma time_match_hms (x y z : ustr) :
  all_decimal x -> x <> [] -> all_decimal y -> y <> [] -> all_decimal z -> z <> [] ->
  time_match (x ++ 58 :: y ++ 58 :: z)%list = Some (x, y, Some z).
Proof.
  intros Hx Nx Hy Ny Hz Nz. unfold time_match.
  rewrite (span_digits_all x (58 :: y ++ 58 :: z)%list Hx colon_not_decimal).
  destruct x; [ congruence | ]. cbn [N.eqb Pos.eqb].
  rewrite (span_digits_all y (58 :: z)%list Hy colon_not_decimal).
  destruct y; [ congruence | ]. cbn [N.eqb Pos.eqb].
  rewrite <- (app_nil_r z), (span_digits_all z [] Hz I).
  destruct z; [ congruence | ]. rewrite app_nil_r. reflexivity.
Qed.

Lemma time_match_ms (y z : ustr) :
  all_decimal y -> y <> [] -> all_decimal z -> z <> [] ->
  time_match (y ++ 58 :: z)%list = Some (y, z, None).
Proof.
  intros Hy Ny Hz Nz. unfold time_match.
  rewrite (span_digits_all y (58 :: z)%list Hy colon_not_decimal).
  destruct y; [ congruence | ]. cbn [N.eqb Pos.eqb].
  rewrite <- (app_nil_r z), (span_digits_all z [] Hz I).
  destruct z; [ congruence | ]. rewrite app_nil_r. reflexivity.
Qed.

Lemma all_decimal_app (x y : ustr) : all_decimal x -> all_decimal y -> all_decimal (x ++ y)%list.
Proof. intros. apply Forall_app. auto. Qed.

Lemma int_acc_digits (acc : Z) (s : ustr) :
  all_decimal s -> int_acc acc s = Ok (digits_value acc s).
Proof.
  revert acc; induction s as [|c s IH]; intros acc H; [reflexivity|].
  inversion H as [|? ? Hc Hs]; subst. cbn [int_acc digits_value].
  unfold is_decimal in Hc. destruct (decimal_value c); [apply IH, Hs | discriminate].
Qed.

(** [int] of at most [int_max_str_digits] decimal digits. *)
Lemma int_of_digits (s : ustr) :
  all_decimal s -> s <> [] -> (List.length s <= int_max_str_digits)%nat ->
  int_of s = Ok (digits_value 0 s).
Proof.
  intros H Hne Hl. destruct s as [|c s]; [congruence|]. unfold int_of.
  replace (int_max_str_digits <? List.length (c :: s))%nat with false
    by (symmetry; apply Nat.ltb_ge; exact Hl).
  apply int_acc_digits, H.
Qed.

Lemma max_digits_ge2 : (2 <= int_max_str_digits)%nat.
Proof. apply Nat.leb_le. vm_compute. reflexivity. Qed.

Lemma hms_value (s : Z) : (0 <= s)%Z ->
  (s / 3600 * 3600 + s mod 3600 / 60 * 60 + s mod 60)%Z = s.
Proof.
  intros Hs.
  pose proof (Z.div_mod s 3600 ltac:(lia)) as E1.
  pose proof (Z.mod_pos_bound s 3600 ltac:(lia)) as B1.
  pose proof (Z.div_mod (s mod 3600) 60 ltac:(lia)) as E2.
  pose proof (Z.mod_pos_bound (s mod 3600) 60 ltac:(lia)) as B2.
  assert (M : (s mod 60 = (s mod 3600) mod 60)%Z).
  { symmetry. apply (Z.mod_unique s 60 (60 * (s / 3600) + s mod 3600 / 60)); lia. }
  lia.
Qed.

Lemma format_duration_roundtrip_bound (B seconds : Z) :
  (10 ^ Z.of_nat int_max_str_digits)%Z = B ->
  (format_duration seconds = ValueError <-> (3600 * B <= seconds)%Z) /\
  (forall text, format_duration seconds = Ok text ->
     parse_duration (u text) = Ok (Z.max 0 seconds)).
Proof.
  intros EB.
  assert (HB : (100 <= B)%Z).
  { rewrite <- EB. apply (Z.le_trans _ (10 ^ 2)); [lia | apply Z.pow_le_mono_r; [lia|]].
    pose proof max_digits_ge2. lia. }
  set (s := if (seconds <? 0)%Z then 0%Z else seconds).
  assert (Hs : (0 <= s)%Z) by (unfold s; destruct (Z.ltb_spec seconds 0); lia).
  assert (Hm : (Z.max 0 seconds = s)%Z) by (unfold s; destruct (Z.ltb_spec seconds 0); lia).
  assert (Hss : (0 < seconds -> s = seconds)%Z)
    by (unfold s; destruct (Z.ltb_spec seconds 0); lia).
  rewrite Hm. unfold format_duration. fold s.
  assert (H0 : (0 <= s / 3600)%Z) by (apply Z.div_pos; lia).
  assert (H1 : (0 <= s mod 3600 / 60 < 60)%Z).
  { split; [apply Z.div_pos; [apply Z.mod_pos_bound | ]; lia|].
    apply Z.div_lt_upper_bound; [lia|].
    pose proof (Z.mod_pos_bound s 3600 ltac:(lia)). lia. }
  assert (H2 : (0 <= s mod 60 < 60)%Z) by (apply Z.mod_pos_bound; lia).
  assert (Hbig : (3600 * B <= seconds)%Z <-> (B <= s / 3600)%Z).
  { split; intros H.
    - rewrite Hss by lia. apply Z.div_le_lower_bound; lia.
    - assert (3600 * (s / 3600) <= s)%Z by (apply Z.mul_div_le; lia).
      rewrite <- Hss by lia. lia. }
  destruct (zstr_digits _ H0) as (Ah & Nh & Vh).
  destruct (zstr_digits (s mod 3600 / 60) ltac:(lia)) as (Am & Nm & Vm).
  destruct (format02_digits (s mod 3600 / 60) ltac:(lia)) as (Am2 & Nm2 & Vm2).
  destruct (format02_digits (s mod 60) ltac:(lia)) as (As2 & Ns2 & Vs2).
  assert (Lm2 : (List.length (u (format02 (s mod 3600 / 60))) <= int_max_str_digits)%nat)
    by (pose proof (format02_length (s mod 3600 / 60) ltac:(lia)); pose proof max_digits_ge2; lia).
  assert (Ls2 : (List.length (u (format02 (s mod 60))) <= int_max_str_digits)%nat)
    by (pose proof (format02_length (s mod 60) ltac:(lia)); pose proof max_digits_ge2; lia).
  destruct (s / 3600 >? 0)%Z eqn:Eh.
  - apply Z.gtb_lt in Eh.
    unfold int_to_str. rewrite EB.
    rewrite Z.abs_eq by exact H0.
    destruct (Z.leb_spec B (s / 3600)) as [HL|HL].
    { split; [split; [intros _; apply Hbig, HL | reflexivity] | intros text H; discriminate H]. }
    cbn [py_bind].
    split; [split; [discriminate | intros H; apply Hbig in H; lia] |].
    intros text [= <-].
    assert (Lh : (List.length (u (z_to_string (s / 3600))) <= int_max_str_digits)%nat)
      by (apply z_to_string_length; [lia | rewrite EB; exact HL]).
    repeat first [rewrite u_app | rewrite u_colon].
    replace (Ok s) with (Ok (s / 3600 * 3600 + s mod 3600 / 60 * 60 + s mod 60)%Z)
      by (f_equal; apply hms_value; exact Hs).
    revert Ah Nh Vh Lh Am2 Nm2 Vm2 Lm2 As2 Ns2 Vs2 Ls2.
    generalize (u (z_to_string (s / 3600))) (u (format02 (s mod 3600 / 60)))
      (u (format02 (s mod 60))).
    intros x y z Ah Nh Vh Lh Am2 Nm2 Vm2 Lm2 As2 Ns2 Vs2 Ls2.
    destruct (x ++ 58 :: y ++ 58 :: z)%list eqn:Ex.
    { destruct x; [ congruence | discriminate ]. }
    unfold parse_duration. rewrite <- Ex.
    rewrite strip_keep.
    2: { apply head_decimal_space; assumption. }
    2: { replace (x ++ 58 :: y ++ 58 :: z)%list with ((x ++ 58 :: y ++ [58%N]) ++ z)%list
           by (rewrite <- !app_assoc; simpl; rewrite <- !app_assoc; reflexivity).
         apply last_decimal_space; assumption. }
    rewrite iso_match_digit by assumption.
    rewrite time_match_hms by assumption.
    rewrite !int_of_digits by assumption. cbn [py_bind].
    rewrite Vh, Vm2, Vs2. reflexivity.
  - assert (Z0 : (s / 3600 = 0)%Z) by (rewrite Z.gtb_ltb in Eh; apply Z.ltb_ge in Eh; lia).
    split; [split; [discriminate | intros H; apply Hbig in H; lia] |].
    intros text [= <-].
    assert (Lm : (List.length (u (z_to_string (s mod 3600 / 60))) <= int_max_str_digits)%nat).
    { destruct (Z.eq_dec (s mod 3600 / 60) 0) as [E|E].
      - rewrite E. pose proof max_digits_ge2. vm_compute (List.length _). lia.
      - apply z_to_string_length; [lia|]. rewrite EB.
        lia. }
    repeat first [rewrite u_app | rewrite u_colon].
    replace (Ok s) with (Ok (s / 3600 * 3600 + s mod 3600 / 60 * 60 + s mod 60)%Z)
      by (f_equal; apply hms_value; exact Hs).
    rewrite Z0.
    revert Am Nm Vm Lm As2 Ns2 Vs2 Ls2.
    generalize (u (z_to_string (s mod 3600 / 60))) (u (format02 (s mod 60))).
    intros y z Am Nm Vm Lm As2 Ns2 Vs2 Ls2.
    destruct (y ++ 58 :: z)%list eqn:Ex.
    { destruct y; [ congruence | discriminate ]. }
    unfold parse_duration. rewrite <- Ex.
    rewrite strip_keep.
    2: { apply head_decimal_space; assumption. }
    2: { replace (y ++ 58 :: z)%list with ((y ++ [58%N]) ++ z)%list
           by (rewrite <- app_assoc; reflexivity).
         apply last_decimal_space; assumption. }
    rewrite iso_match_digit by assumption.
    rewrite time_match_ms by assumption.
    rewrite !int_of_digits by assumption. cbn [py_bind].
    rewrite Vm, Vs2. reflexivity.
Qed.
(** X: format_duration raises [ValueError] exactly when the number of
    hours has more than 4300 digits (Python's limit on [str] of an int);
    otherwise parsing its text back gives the number of seconds, negative
    inputs being clamped to zero. *)
Theorem format_duration_roundtrip (seconds : Z) :
  (format_duration seconds = ValueError <-> (3600 * 10 ^ 4300 <= seconds)%Z) /\
  (forall text, format_duration seconds = Ok text ->
     parse_duration (u text) = Ok (Z.max 0 seconds)).
Proof. exact (format_duration_roundtrip_bound (10 ^ 4300) seconds eq_refl). Qed.


Lemma digits_value_nonneg (acc : Z) (s : ustr) : (0 <= acc)%Z -> (0 <= digits_value acc s)%Z.
Proof.
  revert acc; induction s as [|c s IH]; intros acc Hacc; simpl; [ exact Hacc | ].
  destruct (decimal_value c); apply IH; lia.
Qed.

(** A capture [int] reads without raising: non-empty decimal digits, at
    most [k] of them. *)
Definition good_group (k : nat) (d : ustr) : Prop :=
  d <> [] /\ all_decimal d /\ (List.length d <= k)%nat.

Lemma good_group_weaken (k k' : nat) (d : ustr) :
  good_group k d -> (k <= k')%nat -> good_group k' d.
Proof. intros (A & B & C) H. split; [exact A | split; [exact B | lia]]. Qed.

Lemma int_of_good (d : ustr) :
  good_group int_max_str_digits d -> exists n, int_of d = Ok n /\ (0 <= n)%Z.
Proof.
  intros (A & B & C). exists (digits_value 0 d).
  split; [apply int_of_digits; assumption | apply digits_value_nonneg; lia].
Qed.

Lemma int_group_good (g : option ustr) :
  (forall d, g = Some d -> good_group int_max_str_digits d) ->
  exists n, int_group g = Ok n /\ (0 <= n)%Z.
Proof.
  destruct g as [d|]; intros H; [apply int_of_good, H; reflexivity|].
  exists 0%Z. split; [reflexivity | lia].
Qed.

Lemma span_digits_spec (s : ustr) :
  forall d t, span_digits s = (d, t) -> s = (d ++ t)%list /\ all_decimal d.
Proof.
  induction s as [|c s IH]; intros d t E; simpl in E.
  - inversion E; subst. split; [reflexivity | constructor].
  - destruct (is_decimal c) eqn:Ec.
    + destruct (span_digits s) as [d' t'] eqn:E'. injection E as <- <-.
      destruct (IH d' t' eq_refl) as [-> Hd].
      split; [reflexivity | constructor; assumption].
    + inversion E; subst. split; [reflexivity | constructor].
Qed.

Lemma opt_group_spec (l : N) (s : ustr) (g : option ustr) (t : ustr) :
  opt_group l s = (g, t) ->
  (List.length t <= List.length s)%nat /\
  (forall d, g = Some d -> good_group (List.length s) d).
Proof.
  unfold opt_group. destruct (span_digits s) as [d0 t0] eqn:E.
  destruct (span_digits_spec s d0 t0 E) as [Es Hd].
  destruct d0 as [|c0 d0'].
  - intros H; inversion H; subst. split; [lia | discriminate].
  - destruct t0 as [|c t1].
    + intros H; inversion H; subst. split; [lia | discriminate].
    + destruct (ci_letter l c); intros H; inversion H; subst.
      * split; [rewrite length_app; simpl; lia|].
        intros d [= <-]. split; [discriminate | split; [exact Hd | rewrite length_app; lia]].
      * split; [lia | discriminate].
Qed.

Lemma iso_match_groups (s : ustr) (h m sec : option ustr) :
  iso_match s = Some (h, m, sec) ->
  forall d, h = Some d \/ m = Some d \/ sec = Some d -> good_group (List.length s) d.
Proof.
  unfold iso_match. destruct s as [|p [|t r]]; try discriminate.
  destruct (ci_letter 80 p && ci_letter 84 t); [|discriminate].
  destruct (opt_group 72 r) as [h0 r1] eqn:E1.
  destruct (opt_group 77 r1) as [m0 r2] eqn:E2.
  destruct (opt_group 83 r2) as [s0 r3] eqn:E3.
  intros H; inversion H; subst.
  apply opt_group_spec in E1 as [L1 G1]. apply opt_group_spec in E2 as [L2 G2].
  apply opt_group_spec in E3 as [L3 G3].
  intros d [Hg|[Hg|Hg]]; [apply G1 in Hg | apply G2 in Hg | apply G3 in Hg];
    (eapply good_group_weaken; [exact Hg | simpl; lia]).
Qed.

Lemma time_match_groups (s : ustr) (d1 d2 : ustr) (o3 : option ustr) :
  time_match s = Some (d1, d2, o3) ->
  good_group (List.length s) d1 /\ good_group (List.length s) d2 /\
  (forall d3, o3 = Some d3 -> good_group (List.length s) d3).
Proof.
  unfold time_match.
  destruct (span_digits s) as [a r] eqn:E.
  destruct (span_digits_spec s a r E) as [Es Ha]. clear E.
  destruct a as [|a0 a]; [discriminate|].
  destruct r as [|c r]; [discriminate|].
  destruct (c =? 58)%N; [|discriminate].
  destruct (span_digits r) as [b r'] eqn:E2.
  destruct (span_digits_spec r b r' E2) as [Er Hb]. clear E2.
  subst s r.
  destruct b as [|b0 b]; [discriminate|].
  assert (G1 : forall k, (List.length (a0 :: a) <= k)%nat -> good_group k (a0 :: a))
    by (intros k Hk; split; [discriminate | split; assumption]).
  assert (G2 : forall k, (List.length (b0 :: b) <= k)%nat -> good_group k (b0 :: b))
    by (intros k Hk; split; [discriminate | split; assumption]).
  destruct r' as [|c' r''].
  - intros H; inversion H; subst.
    split; [apply G1 | split; [apply G2 | discriminate]];
      rewrite ?length_app; simpl; rewrite ?length_app; simpl; lia.
  - destruct (c' =? 58)%N.
    + destruct (span_digits r'') as [e r3] eqn:E3.
      destruct (span_digits_spec r'' e r3 E3) as [Er3 He]. clear E3. subst r''.
      destruct e as [|e0 e]; intros H; inversion H; subst.
      * split; [apply G1 | split; [apply G2 | discriminate]];
          rewrite ?length_app; simpl; rewrite ?length_app; simpl; lia.
      * split; [apply G1 | split; [apply G2 |]];
          [ rewrite ?length_app; simpl; rewrite ?length_app; simpl; lia
          | rewrite ?length_app; simpl; rewrite ?length_app; simpl; lia |].
        intros d3 [= <-]. split; [discriminate | split; [exact He|]].
        rewrite ?length_app; simpl; rewrite ?length_app; simpl; rewrite ?length_app; lia.
    + intros H; inversion H; subst.
      split; [apply G1 | split; [apply G2 | discriminate]];
        rewrite ?length_app; simpl; rewrite ?length_app; simpl; lia.
Qed.

Lemma lstrip_length (s : ustr) : (List.length (lstrip s) <= List.length s)%nat.
Proof.
  induction s as [|c s IH]; simpl; [lia|]. destruct (is_space c); simpl; lia.
Qed.

Lemma strip_length (s : ustr) : (List.length (strip s) <= List.length s)%nat.
Proof.
  unfold strip. rewrite length_rev.
  pose proof (lstrip_length (rev (lstrip s))). rewrite length_rev in H.
  pose proof (lstrip_length s). lia.
Qed.

Lemma in_lstrip (c : N) (s : ustr) : In c (lstrip s) -> In c s.
Proof.
  induction s as [|d s IH]; simpl; [ auto | ].
  destruct (is_space d); [ intros H; right; auto | auto ].
Qed.

Lemma in_strip (c : N) (s : ustr) : In c (strip s) -> In c s.
Proof.
  unfold strip. intros H. apply in_rev in H. apply in_lstrip in H.
  apply in_rev in H. apply in_lstrip in H. exact H.
Qed.

(** X: parse_duration raises only on text holding a digit character that
    is not a decimal digit (such as a superscript) or on a run of more than
    4300 digits; on text of at most 4300 characters none of which is such a
    digit it returns a number of seconds, which is never negative. *)
Theorem parse_duration_total (s : ustr) :
  (forall c, In c s -> is_digit_only c = false) ->
  (List.length s <= int_max_str_digits)%nat ->
  exists n, parse_duration s = Ok n /\ (0 <= n)%Z.
Proof.
  intros Hs Hl. destruct s as [|c0 s0]; [ exists 0%Z; split; [ reflexivity | lia ] | ].
  unfold parse_duration. cbv beta iota zeta. set (s := c0 :: s0) in *.
  pose proof (strip_length s) as Ls.
  destruct (iso_match (strip s)) as [[[h m] sec]|] eqn:Ei.
  { pose proof (iso_match_groups _ _ _ _ Ei) as G.
    destruct (int_group_good h) as [a [-> Ha]].
    { intros d Hd. eapply good_group_weaken; [apply G; auto | lia]. }
    destruct (int_group_good m) as [b [-> Hb]].
    { intros d Hd. eapply good_group_weaken; [apply G; auto | lia]. }
    destruct (int_group_good sec) as [c [-> Hc]].
    { intros d Hd. eapply good_group_weaken; [apply G; auto | lia]. }
    cbn [py_bind]. eexists; split; [reflexivity | lia]. }
  destruct (time_match (strip s)) as [[[d1 d2] o3]|] eqn:Et.
  { destruct (time_match_groups _ _ _ _ Et) as (G1 & G2 & G3).
    destruct (int_of_good d1) as [a [-> Ha]]; [eapply good_group_weaken; [exact G1 | lia]|].
    destruct (int_of_good d2) as [b [-> Hb]]; [eapply good_group_weaken; [exact G2 | lia]|].
    destruct o3 as [d3|].
    - destruct (int_of_good d3) as [c [-> Hc]];
        [eapply good_group_weaken; [exact (G3 d3 eq_refl) | lia]|].
      cbn [py_bind]. eexists; split; [reflexivity | lia].
    - cbn [py_bind]. eexists; split; [reflexivity | lia]. }
  destruct (isdigit (strip s)) eqn:Hd; [ | exists 0%Z; split; [ reflexivity | lia ] ].
  apply int_of_good. split; [|split].
  - destruct (strip s); [discriminate | congruence].
  - unfold all_decimal. apply Forall_forall. intros c Hc.
    assert (Hd' : forallb (fun c => is_decimal c || is_digit_only c) (strip s) = true)
      by (unfold isdigit in Hd; destruct (strip s); [discriminate | exact Hd]).
    rewrite forallb_forall in Hd'.
    specialize (Hd' c Hc).
    rewrite (Hs c (in_strip c s Hc)), orb_false_r in Hd'. exact Hd'.
  - lia.
Qed.

Lemma parse_duration_total_witness :
  (forall c, In c (u "1:05") -> is_digit_only c = false) /\
  (List.length (u "1:05") <= int_max_str_digits)%nat /\
  exists n, parse_duration (u "1:05") = Ok n /\ (0 <= n)%Z.
Proof.
  assert (H : forall c, In c (u "1:05") -> is_digit_only c = false).
  { intros c Hc. simpl in Hc. repeat (destruct Hc as [<- | Hc]; [ reflexivity | ]). destruct Hc. }
  assert (L : (List.length (u "1:05") <= int_max_str_digits)%nat)
    by (unfold int_max_str_digits; simpl; lia).
  split; [ exact H | split; [ exact L | apply (parse_duration_total (u "1:05")); assumption ] ].
Defined.

End FormatProofs.

(* ------------------------------------------------------------------ *)
(** ** The shapes utils.parse_duration reads *)
Module DurationShapes.
Import Duration FormatProofs.
Open Scope string_scope.
Open Scope list_scope.










Lemma good_all (d : ustr) : good_group int_max_str_digits d ->
  d <> [] /\ all_decimal d /\ (List.length d <= int_max_str_digits)%nat.
Proof. intros H. exact H. Qed.








End DurationShapes.

(* ------------------------------------------------------------------ *)
(** ** utils.sanitize_filename *)
Module SanitizeProofs.
Import Duration Sanitize.

Definition unsafe (c : N) : bool := existsb (N.eqb c) unsafe_chars.
Definition strip_set (c : N) : bool := existsb (N.eqb c) [32; 46]%N.

Lemma fold_replace_map (chs : ustr) (new : N) (s : ustr) :
  fold_left (fun f ch => replace_char ch new f) chs s
  = map (fun c => fold_left (fun c ch => if (c =? ch)%N then new else c) chs c) s.
Proof.
  revert s; induction chs as [|ch chs IH]; intros s; simpl.
  - symmetry; apply map_id.
  - rewrite IH. unfold replace_char. rewrite map_map. reflexivity.
Qed.

Lemma fold_replace_char (chs : ustr) (new c : N) :
  existsb (N.eqb new) chs = false ->
  fold_left (fun c ch => if (c =? ch)%N then new else c) chs c
  = if existsb (N.eqb c) chs then new else c.
Proof.
  revert c; induction chs as [|ch chs IH]; intros c Hn; simpl in *; [ reflexivity | ].
  apply orb_false_iff in Hn as [Hn1 Hn2].
  destruct (c =? ch)%N eqn:E; simpl.
  - rewrite IH by exact Hn2. rewrite Hn2. reflexivity.
  - rewrite IH by exact Hn2. reflexivity.
Qed.

(** The replacement loop maps every unsafe character to an underscore. *)
Lemma replace_unsafe (s : ustr) :
  fold_left (fun f ch => replace_char ch 95 f) unsafe_chars s
  = map (fun c => if unsafe c then 95%N else c) s.
Proof.
  rewrite fold_replace_map. apply map_ext. intros c.
  apply fold_replace_char. reflexivity.
Qed.

Lemma lstrip_by_suffix (p : N -> bool) (s : ustr) :
  exists pre, s = (pre ++ lstrip_by p s)%list.
Proof.
  induction s as [|c s [pre IH]]; simpl; [ exists []; reflexivity | ].
  destruct (p c); [ exists (c :: pre); simpl; congruence | exists []; reflexivity ].
Qed.

Lemma lstrip_by_head (p : N -> bool) (s : ustr) :
  match lstrip_by p s with c :: _ => p c = false | [] => True end.
Proof.
  induction s as [|c s IH]; simpl; [ exact I | ].
  destruct (p c) eqn:E; [ exact IH | exact E ].
Qed.

(** [strip] keeps a prefix of its left-stripped input. *)
Lemma strip_chars_prefix (chars s : ustr) :
  exists t, lstrip_by (fun c => existsb (N.eqb c) chars) s = (strip_chars chars s ++ t)%list.
Proof.
  unfold strip_chars.
  set (l := lstrip_by (fun c => existsb (N.eqb c) chars) s).
  destruct (lstrip_by_suffix (fun c => existsb (N.eqb c) chars) (rev l)) as [pre E].
  exists (rev pre). rewrite <- rev_app_distr, <- E, rev_involutive. reflexivity.
Qed.

Lemma strip_chars_head (chars s : ustr) :
  match strip_chars chars s with c :: _ => existsb (N.eqb c) chars = false | [] => True end.
Proof.
  destruct (strip_chars_prefix chars s) as [t E].
  pose proof (lstrip_by_head (fun c => existsb (N.eqb c) chars) s) as H.
  rewrite E in H. destruct (strip_chars chars s); [ exact I | exact H ].
Qed.

Lemma strip_chars_in (chars s : ustr) (c : N) : In c (strip_chars chars s) -> In c s.
Proof.
  intros H. destruct (strip_chars_prefix chars s) as [t E].
  destruct (lstrip_by_suffix (fun c => existsb (N.eqb c) chars) s) as [pre E2].
  rewrite E2, E. apply in_or_app. right. apply in_or_app. left. exact H.
Qed.

Lemma slice_to_prefix (s : ustr) (k : Z) : exists t, s = (slice_to s k ++ t)%list.
Proof.
  unfold slice_to. destruct (0 <=? k)%Z;
  [ exists (skipn (Z.to_nat k) s) | exists (skipn (Z.to_nat (Z.of_nat (List.length s) + k)) s) ];
  symmetry; apply firstn_skipn.
Qed.

(** The sanitized name as the steps of sanitize_filename build it. *)
Lemma sanitize_cases (filename : ustr) (max_length : Z) :
  filename = [] /\ sanitize_filename filename max_length = u "video"
  \/ (let st := strip_chars [32; 46]%N (map (fun c => if unsafe c then 95%N else c) filename) in
      let tr := if (max_length <? Z.of_nat (List.length st))%Z then slice_to st max_length else st in
      (tr = [] /\ sanitize_filename filename max_length = u "video")
      \/ (tr <> [] /\ sanitize_filename filename max_length = tr)).
Proof.
  destruct filename as [|c f]; [ left; split; reflexivity | right ].
  unfold sanitize_filename. rewrite <- replace_unsafe.
  cbv beta iota zeta.
  match goal with
  | |- context [match ?t with [] => _ | _ :: _ => _ end] => destruct t as [|x tr]
  end; [ left; split; reflexivity | right ].
  split; [ discriminate | reflexivity ].
Qed.

Lemma video_safe :
  u "video" <> [] /\ (forall c, In c (u "video") -> unsafe c = false)
  /\ match u "video" with c :: _ => strip_set c = false | [] => False end.
Proof.
  split; [ discriminate | split ].
  - intros c Hc. simpl in Hc. repeat (destruct Hc as [<- | Hc]; [ reflexivity | ]). destruct Hc.
  - reflexivity.
Qed.

(** X: whatever the name and the length limit, the result is non-empty,
    contains none of the unsafe characters, and does not start with a space
    or a dot. *)
Theorem sanitize_filename_safe (filename : ustr) (max_length : Z) :
  let r := sanitize_filename filename max_length in
  r <> [] /\ (forall c, In c r -> unsafe c = false)
  /\ match r with c :: _ => strip_set c = false | [] => False end.
Proof.
  cbv zeta.
  destruct (sanitize_cases filename max_length) as [[_ ->] | [[_ ->] | [Hne ->]]];
  try apply video_safe.
  revert Hne.
  set (m := map (fun c => if unsafe c then 95%N else c) filename).
  set (st := strip_chars [32; 46]%N m).
  assert (Hm : forall c, In c m -> unsafe c = false).
  { intros c Hc. unfold m in Hc. apply in_map_iff in Hc as [x [<- _]].
    destruct (unsafe x) eqn:E; [ reflexivity | exact E ]. }
  assert (Hst : forall c, In c st -> unsafe c = false)
    by (intros c Hc; apply Hm; eapply strip_chars_in; exact Hc).
  pose proof (strip_chars_head [32; 46]%N m) as Hhd. fold st in Hhd.
  destruct (max_length <? Z.of_nat (List.length st))%Z; intros Hne.
  - destruct (slice_to_prefix st max_length) as [t Et].
    split; [ exact Hne | split ].
    + intros c Hc. apply Hst. rewrite Et. apply in_or_app. left. exact Hc.
    + destruct (slice_to st max_length) as [|c r]; [ congruence | ].
      rewrite Et in Hhd. exact Hhd.
  - split; [ exact Hne | split; [ exact Hst | ] ].
    destruct st; [ congruence | exact Hhd ].
Qed.

(** X: with a non-negative limit, the result is within the limit, unless
    it is the fallback name "video". *)
Theorem sanitize_filename_length (filename : ustr) (max_length : Z) :
  (0 <= max_length)%Z ->
  sanitize_filename filename max_length = u "video"
  \/ (Z.of_nat (List.length (sanitize_filename filename max_length)) <= max_length)%Z.
Proof.
  intros Hm.
  destruct (sanitize_cases filename max_length) as [[_ ->] | [[_ ->] | [_ ->]]];
  [ left; reflexivity | left; reflexivity | right ].
  set (st := strip_chars _ _).
  destruct (max_length <? Z.of_nat (List.length st))%Z eqn:E.
  - unfold slice_to. replace (0 <=? max_length)%Z with true by (symmetry; apply Z.leb_le; lia).
    rewrite length_firstn. lia.
  - apply Z.ltb_ge in E. exact E.
Qed.

(** X: a name that is already safe (no unsafe character, no leading or
    trailing space or dot) and within the limit comes back unchanged. *)
Theorem sanitize_filename_fixpoint (filename : ustr) (max_length : Z) :
  filename <> [] ->
  (forall c, In c filename -> unsafe c = false) ->
  match filename with c :: _ => strip_set c = false | [] => True end ->
  match rev filename with c :: _ => strip_set c = false | [] => True end ->
  (Z.of_nat (List.length filename) <= max_length)%Z ->
  sanitize_filename filename max_length = filename.
Proof.
  intros Hne Hsafe Hhd Htl Hlen.
  assert (Hmap : map (fun c => if unsafe c then 95%N else c) filename = filename).
  { rewrite <- (map_id filename) at 2. apply map_ext_in. intros c Hc. now rewrite Hsafe. }
  assert (Hst : strip_chars [32; 46]%N filename = filename).
  { unfold strip_chars.
    assert (L : forall l : ustr, match l with c :: _ => strip_set c = false | [] => True end ->
                  lstrip_by (fun c => existsb (N.eqb c) [32; 46]%N) l = l).
    { intros [|c l] H; simpl; [ reflexivity | ]. unfold strip_set in H. simpl in H. now rewrite H. }
    rewrite (L filename Hhd), (L (rev filename) Htl). apply rev_involutive. }
  destruct (sanitize_cases filename max_length) as [[E _] | [[E _] | [_ ->]]];
  [ congruence | | ]; rewrite Hmap, Hst in *.
  - replace (max_length <? Z.of_nat (List.length filename))%Z with false in E
      by (symmetry; apply Z.ltb_ge; lia). congruence.
  - replace (max_length <? Z.of_nat (List.length filename))%Z with false
      by (symmetry; apply Z.ltb_ge; lia). reflexivity.
Qed.

Lemma sanitize_filename_length_witness :
  (0 <= 4)%Z /\
  (sanitize_filename (u " a/b.txt.") 4 = u "video"
   \/ (Z.of_nat (List.length (sanitize_filename (u " a/b.txt.") 4)) <= 4)%Z).
Proof. split; [ lia | apply (sanitize_filename_length (u " a/b.txt.") 4); lia ]. Defined.

Lemma sanitize_filename_fixpoint_witness :
  sanitize_filename (u "clip.mp4") 200 = u "clip.mp4".
Proof.
  apply (sanitize_filename_fixpoint (u "clip.mp4") 200).
  - discriminate.
  - intros c Hc. simpl in Hc. repeat (destruct Hc as [<- | Hc]; [ reflexivity | ]). destruct Hc.
  - reflexivity.
  - reflexivity.
  - vm_compute. discriminate.
Defined.

End SanitizeProofs.

(* ------------------------------------------------------------------ *)
(** ** The result loops of Client.search, get_videos_by_category and
       get_videos_by_tag, and main._cache_search_results *)
Module ListingInvariants.
Import Text TextFacts PyDict DictFacts Urls Listing Cache Samples.
Open Scope string_scope.

Section StepInvariant.
Variable T : Type.
Variable n : nat.
Variable P : Entry -> Prop.
Variable step : list string * list Entry -> T -> list string * list Entry.
Variable Q : T -> Prop.

(** One loop iteration either leaves the state alone or appends one entry
    whose id is new, below the limit, and satisfying [P]. *)
Hypothesis step_shape : forall seen res x, Q x ->
  step (seen, res) x = (seen, res)
  \/ exists e, step (seen, res) x = (video_id e :: seen, List.app res [e])
               /\ ~ In (video_id e) seen /\ (List.length res < n)%nat /\ P e.

Definition inv (st : list string * list Entry) : Prop :=
  fst st = rev (map video_id (snd st)) /\ NoDup (fst st)
  /\ (List.length (snd st) <= n)%nat /\ Forall P (snd st).

Lemma fold_inv (xs : list T) (st : list string * list Entry) :
  (forall x, In x xs -> Q x) -> inv st -> inv (fold_left step xs st).
Proof.
  revert st; induction xs as [|x xs IH]; intros [seen res] HQ Hinv; simpl; [ exact Hinv | ].
  apply IH; [ intros y Hy; apply HQ; right; exact Hy | ].
  destruct (step_shape seen res x (HQ x (or_introl eq_refl))) as [-> | (e & -> & Hnew & Hlt & He)];
  [ exact Hinv | ].
  destruct Hinv as (E & Hnd & Hlen & Hall). simpl in *. unfold inv. simpl.
  split; [ rewrite map_app, rev_app_distr, E; reflexivity | ].
  split; [ constructor; assumption | ].
  split; [ rewrite List.length_app; simpl; lia | ].
  apply Forall_app; split; [ exact Hall | constructor; [ exact He | constructor ] ].
Qed.

End StepInvariant.

Lemma inv_nil (n : nat) (P : Entry -> Prop) : inv n P ([], []).
Proof.
  unfold inv; simpl. split; [ reflexivity | split; [ constructor | split; [ lia | constructor ] ] ].
Qed.

Lemma inv_nodup (n : nat) (P : Entry -> Prop) (st : list string * list Entry) :
  inv n P st -> NoDup (map video_id (snd st)).
Proof.
  intros (E & Hnd & _ & _). rewrite E in Hnd. apply NoDup_rev in Hnd.
  rewrite rev_involutive in Hnd. exact Hnd.
Qed.

Lemma get_app_last (s : string) (c : ascii) :
  String.get (String.length s) (s ++ String c EmptyString) = Some c.
Proof. induction s as [|d s IH]; simpl; [ reflexivity | exact IH ]. Qed.

Lemma endswith_char_snoc (s : string) (c : ascii) :
  endswith_char (s ++ String c EmptyString) c = true.
Proof.
  unfold endswith_char. rewrite length_app. simpl String.length.
  replace (String.length s + 1 - 1)%nat with (String.length s) by lia.
  rewrite get_app_last. rewrite Ascii.eqb_refl, andb_true_r.
  apply Nat.ltb_lt. lia.
Qed.

Lemma ensure_slash (p : string) :
  endswith_char (if negb (endswith_char p "/") then p ++ "/" else p) "/" = true.
Proof.
  destruct (endswith_char p "/") eqn:E; simpl; [ exact E | apply endswith_char_snoc ].
Qed.

(** What the search loops guarantee of each entry they add. *)
Definition search_entry_ok (e : Entry) : Prop :=
  isdigit (video_id e) = true /\ url e = ROOT_URL ++ full_path e
  /\ endswith_char (full_path e) "/" = true.

Lemma guard_true (vid : string) (seen : list string) (res : list Entry) (n : nat) :
  (negb (vid =? "") && isdigit vid && negb (existsb (String.eqb vid) seen)
   && (List.length res <? n)%nat) = true ->
  isdigit vid = true /\ ~ In vid seen /\ (List.length res < n)%nat.
Proof.
  intros H. repeat rewrite andb_true_iff in H. destruct H as [[[_ Hd] Hs] Hl].
  split; [ exact Hd | split ].
  - intros Hin. apply negb_true_iff in Hs.
    assert (existsb (String.eqb vid) seen = true)
      by (apply existsb_exists; exists vid; split; [ exact Hin | apply String.eqb_refl ]).
    congruence.
  - apply Nat.ltb_lt. exact Hl.
Qed.

Lemma search_step_shape (n : nat) (seen : list string) (res : list Entry)
  (m : string * string * string) : True ->
  search_step n (seen, res) m = (seen, res)
  \/ exists e, search_step n (seen, res) m = (video_id e :: seen, List.app res [e])
               /\ ~ In (video_id e) seen /\ (List.length res < n)%nat /\ search_entry_ok e.
Proof.
  intros _. destruct m as [[p vid] sl]. unfold search_step.
  destruct (_ && _ && _ && _)%bool eqn:G; [ right | left; reflexivity ].
  destruct (guard_true _ _ _ _ G) as (Hd & Hnew & Hlt).
  match goal with |- context [ List.app res [?e] ] => exists e end.
  split; [ reflexivity | ]. simpl.
  split; [ exact Hnew | split; [ exact Hlt | ] ].
  split; [ exact Hd | split; [ reflexivity | apply ensure_slash ] ].
Qed.

Lemma thumb_step_shape (n : nat) (seen : list string) (res : list Entry)
  (m : string * string) : True ->
  thumb_step n (seen, res) m = (seen, res)
  \/ exists e, thumb_step n (seen, res) m = (video_id e :: seen, List.app res [e])
               /\ ~ In (video_id e) seen /\ (List.length res < n)%nat /\ search_entry_ok e.
Proof.
  intros _. destruct m as [p vid]. unfold thumb_step.
  destruct (_ && _ && _ && _)%bool eqn:G; [ right | left; reflexivity ].
  destruct (guard_true _ _ _ _ G) as (Hd & Hnew & Hlt).
  match goal with |- context [ List.app res [?e] ] => exists e end.
  split; [ reflexivity | ]. simpl.
  split; [ exact Hnew | split; [ exact Hlt | ] ].
  split; [ exact Hd | split; [ reflexivity | apply ensure_slash ] ].
Qed.

Lemma id_step_shape (n : nat) (seen : list string) (res : list Entry) (vid : string) : True ->
  id_step n (seen, res) vid = (seen, res)
  \/ exists e, id_step n (seen, res) vid = (video_id e :: seen, List.app res [e])
               /\ ~ In (video_id e) seen /\ (List.length res < n)%nat /\ search_entry_ok e.
Proof.
  intros _. unfold id_step.
  destruct (_ && _ && _ && _)%bool eqn:G; [ right | left; reflexivity ].
  destruct (guard_true _ _ _ _ G) as (Hd & Hnew & Hlt).
  match goal with |- context [ List.app res [?e] ] => exists e end.
  split; [ reflexivity | ]. simpl.
  split; [ exact Hnew | split; [ exact Hlt | ] ].
  split; [ exact Hd | split; [ reflexivity | ] ].
  change (endswith_char (("/video/" ++ vid) ++ "/") "/" = true). apply endswith_char_snoc.
Qed.

(** The invariant of the four search loops, carried to the result. *)
Lemma search_results_inv (html_content : string) (max_results : nat) :
  let res := search_results html_content max_results in
  (List.length res <= max_results)%nat /\ NoDup (map video_id res)
  /\ Forall search_entry_ok res.
Proof.
  cbv zeta. unfold search_results.
  set (I := inv max_results search_entry_ok).
  assert (F1 : forall xs st, I st -> I (fold_left (search_step max_results) xs st))
    by (intros; apply (fold_inv _ _ _ _ (fun _ => True)); [ apply search_step_shape | auto | assumption ]).
  assert (F2 : forall xs st, I st -> I (fold_left (thumb_step max_results) xs st))
    by (intros; apply (fold_inv _ _ _ _ (fun _ => True)); [ apply thumb_step_shape | auto | assumption ]).
  assert (F3 : forall xs st, I st -> I (fold_left (id_step max_results) xs st))
    by (intros; apply (fold_inv _ _ _ _ (fun _ => True)); [ apply id_step_shape | auto | assumption ]).
  assert (H0 : I ([], [])) by apply inv_nil.
  set (st1 := fold_left _ (findall search_p1_at html_content) ([], [])).
  assert (H1 : I st1) by (apply F1, H0).
  set (st2 := match snd st1 with [] => _ | _ => st1 end).
  assert (H2 : I st2) by (unfold st2; destruct (snd st1); auto).
  set (st3 := match snd st2 with [] => _ | _ => st2 end).
  assert (H3 : I st3) by (unfold st3; destruct (snd st2); auto).
  set (st4 := match snd st3 with [] => _ | _ => st3 end).
  assert (H4 : I st4) by (unfold st4; destruct (snd st3); auto).
  split; [ apply H4 | split; [ apply (inv_nodup _ _ _ H4) | apply H4 ] ].
Qed.

(** For every page and limit, Client.search returns at most the limit,
    no video id twice, every id a digit string, and every entry's URL is the
    site origin followed by its path, which ends with a slash. *)
Theorem search_results_invariant (html_content : string) (max_results : nat) :
  let res := search_results html_content max_results in
  (List.length res <= max_results)%nat /\ NoDup (map video_id res)
  /\ Forall search_entry_ok res.
Proof. exact (search_results_inv html_content max_results). Qed.

Lemma span_digits_forall (s d t : string) :
  span_digits s = (d, t) -> forallb is_digit_char (list_ascii_of_string d) = true.
Proof.
  revert d t; induction s as [|c s IH]; intros d t H; simpl in H.
  - inversion H; reflexivity.
  - destruct (is_digit_char c) eqn:Ec.
    + destruct (span_digits s) as [d' t'] eqn:E. inversion H; subst. simpl.
      rewrite Ec. simpl. eapply IH. reflexivity.
    + inversion H; reflexivity.
Qed.

Lemma digits_slash_isdigit (t d r : string) : digits_slash t = Some (d, r) -> isdigit d = true.
Proof.
  unfold digits_slash. destruct (span_digits t) as [d' t'] eqn:E.
  destruct d' as [|c d'']; [ discriminate | ].
  destruct t' as [|c' r']; [ discriminate | ].
  destruct (Ascii.eqb c' "/"); [ | discriminate ].
  intros H; inversion H; subst. unfold isdigit.
  apply digits_isdigit_chars. eapply span_digits_forall. exact E.
Qed.

Lemma path_at_by_isdigit (ci : bool) (t p d r : string) :
  path_at_by ci t = Some (p, d, r) -> isdigit d = true.
Proof.
  unfold path_at_by. intros H.
  destruct (re_take ci "/video" t) as [[v r0]|]; [ | discriminate ].
  repeat (cbv beta iota zeta in H;
    match type of H with
    | context [digits_slash ?a] => destruct (digits_slash a) as [[? ?]|] eqn:?
    | context [match ?x with EmptyString => _ | String _ _ => _ end] =>
        is_var x; destruct x
    | context [if ?b then _ else _] => destruct b
    end);
  try discriminate; inversion H; subst; eapply digits_slash_isdigit; eassumption.
Qed.

Lemma link_path_isdigit (a b : ascii -> bool) (t fp d sl rest : string) :
  link_path a b t = Some ((fp, d, sl), rest) -> isdigit d = true.
Proof.
  unfold link_path, path_at.
  destruct (path_at_by true t) as [[[p d0] r]|] eqn:E; [ | discriminate ].
  destruct (span_not a r) as [[|c s0] [|q rest0]]; try discriminate.
  destruct (b q); [ | discriminate ].
  intros H; inversion H; subst. eapply path_at_by_isdigit. exact E.
Qed.

Lemma full_link_at_isdigit (s fp d sl rest : string) :
  full_link_at s = Some ((fp, d, sl), rest) -> isdigit d = true.
Proof.
  unfold full_link_at. destruct (ci_take _ s) as [[_ t]|]; [ | discriminate ].
  apply link_path_isdigit.
Qed.

(** Every item [findall] returns is the capture of a successful attempt. *)
Lemma scan_in {X : Type} (a : string -> option (X * string)) (k : nat) (s : string) (x : X) :
  In x (scan a k s) -> exists s' rest, a s' = Some (x, rest).
Proof.
  revert k; induction s as [|c s IH]; intros k H; simpl in H; [ contradiction | ].
  destruct k as [|k]; [ | eapply IH; exact H ].
  destruct (a (String c s)) as [[y rest]|] eqn:E; [ | eapply IH; exact H ].
  destruct H as [<- | H]; [ eauto | eapply IH; exact H ].
Qed.

(** What the category and tag loop guarantees of each entry it adds. *)
Definition listing_entry_ok (e : Entry) : Prop :=
  isdigit (video_id e) = true /\ url e = ROOT_URL ++ full_path e.

Lemma full_link_step_shape (n : nat) (seen : list string) (res : list Entry)
  (m : string * string * string) : isdigit (snd (fst m)) = true ->
  full_link_step n (seen, res) m = (seen, res)
  \/ exists e, full_link_step n (seen, res) m = (video_id e :: seen, List.app res [e])
               /\ ~ In (video_id e) seen /\ (List.length res < n)%nat /\ listing_entry_ok e.
Proof.
  destruct m as [[p vid] sl]. simpl. intros Hd. unfold full_link_step.
  destruct (negb (existsb (String.eqb vid) seen) && (List.length res <? n)%nat)%bool eqn:G;
  [ right | left; reflexivity ].
  apply andb_true_iff in G as [Hs Hl].
  match goal with |- context [ List.app res [?e] ] => exists e end.
  split; [ reflexivity | ]. simpl.
  split; [ | split; [ apply Nat.ltb_lt; exact Hl | split; [ exact Hd | reflexivity ] ] ].
  intros Hin. apply negb_true_iff in Hs.
  assert (existsb (String.eqb vid) seen = true)
    by (apply existsb_exists; exists vid; split; [ exact Hin | apply String.eqb_refl ]).
  congruence.
Qed.

(** The category and tag loop keeps the invariant. *)
Lemma full_link_fold_inv (html_content : string) (max_results : nat) :
  inv max_results listing_entry_ok
    (fold_left (full_link_step max_results) (findall full_link_at html_content) ([], [])).
Proof.
  apply (fold_inv _ _ _ _ (fun m => isdigit (snd (fst m)) = true)).
  - intros seen r m Hm. apply full_link_step_shape. exact Hm.
  - intros [[fp d] sl] Hin. unfold findall in Hin.
    destruct (scan_in _ _ _ _ Hin) as (s' & rest & E).
    simpl. eapply full_link_at_isdigit. exact E.
  - apply inv_nil.
Qed.

(** For every page and limit, get_videos_by_category and
    get_videos_by_tag each return at most the limit, no video id twice,
    every id a digit string, and every URL is the site origin followed by
    the entry's path. *)
Theorem category_tag_results_invariant (html_content : string) (max_results : nat) :
  let ok := fun res : list Entry =>
    (List.length res <= max_results)%nat /\ NoDup (map video_id res)
    /\ Forall listing_entry_ok res in
  ok (category_results html_content max_results) /\ ok (tag_results html_content max_results).
Proof.
  cbv zeta. pose proof (full_link_fold_inv html_content max_results) as Hc.
  change (category_results html_content max_results) with
    (snd (fold_left (full_link_step max_results) (findall full_link_at html_content) ([], []))).
  change (tag_results html_content max_results) with
    (snd (fold_left (full_link_step max_results) (findall full_link_at html_content) ([], []))).
  split; (split; [ apply Hc | split; [ apply (inv_nodup _ _ _ Hc) | apply Hc ] ]).
Qed.

Lemma get_set_same (k v : string) (m : dict) : get k (set k v m) = Some v.
Proof.
  induction m as [|[k' v'] r IH]; simpl; [ now rewrite String.eqb_refl | ].
  destruct (String.eqb_spec k k') as [->|Hne]; simpl.
  - now rewrite String.eqb_refl.
  - apply String.eqb_neq in Hne. rewrite Hne. exact IH.
Qed.

Lemma get_set_other (k k' v : string) (m : dict) : k <> k' -> get k (set k' v m) = get k m.
Proof.
  intros Hne. induction m as [|[k0 v0] r IH]; simpl.
  - apply String.eqb_neq in Hne. now rewrite Hne.
  - destruct (String.eqb_spec k' k0) as [->|Hne']; simpl.
    + apply String.eqb_neq in Hne. now rewrite Hne.
    + destruct (String.eqb k k0); [ reflexivity | exact IH ].
Qed.

(** The cache lookup of _parse_video_identifier is [dict.get]. *)
Lemma find_get (k : string) (m : dict) :
  match find (fun kv => String.eqb (fst kv) k) m with
  | Some (_, v) => Some v
  | None => None
  end = get k m.
Proof.
  induction m as [|[k' v'] r IH]; simpl; [ reflexivity | ].
  rewrite String.eqb_sym. destruct (String.eqb k k'); [ reflexivity | exact IH ].
Qed.

Lemma cache_one_other (c : dict) (e : Entry) (k : string) :
  video_id e <> k -> get k (cache_one c e) = get k c.
Proof.
  intros Hne. unfold cache_one.
  repeat match goal with |- context [if ?b then _ else _] => destruct b end;
  try reflexivity; apply get_set_other; congruence.
Qed.

Lemma cache_fold_other (c : dict) (rs : list Entry) (k : string) :
  ~ In k (map video_id rs) ->
  get k (cache_search_results c rs) = get k c.
Proof.
  unfold cache_search_results. revert c; induction rs as [|e rs IH]; intros c Hk; simpl in *;
  [ reflexivity | ].
  rewrite IH by tauto. apply cache_one_other. tauto.
Qed.

Lemma has_slash_root (p : string) : has_char "/" (ROOT_URL ++ p) = true.
Proof. reflexivity. Qed.

Lemma cache_one_same (c : dict) (e : Entry) :
  video_id e <> "" -> url e <> "" -> has_char "/" (url e) = true ->
  exists v, get (video_id e) (cache_one c e) = Some v
            /\ (endswith (url e) ("/" ++ video_id e ++ "/") = false -> v = url e).
Proof.
  intros Hv Hu Hs. unfold cache_one.
  apply String.eqb_neq in Hv, Hu. rewrite Hv, Hu, Hs.
  destruct (endswith (url e) ("/" ++ video_id e ++ "/")) eqn:Ee; cbn [negb andb].
  - destruct (mem (video_id e) c) eqn:Hm; cbn [negb].
    + apply mem_true_iff, in_keys_get in Hm as [v Hg].
      exists v. split; [ exact Hg | discriminate ].
    + exists (url e). split; [ apply get_set_same | reflexivity ].
  - exists (url e). split; [ apply get_set_same | reflexivity ].
Qed.

Lemma split_slash_isdigit (d : string) : isdigit d = true -> split_slash_once d = None.
Proof.
  intros H. pose proof (isdigit_chars d H) as Hc. clear H.
  induction d as [|c d IH]; simpl in *; [ reflexivity | ].
  apply andb_prop in Hc as [Hc Hd]. rewrite isdigit_char_not_slash by exact Hc.
  rewrite IH by exact Hd. reflexivity.
Qed.

(** After a search, every returned video can be looked up by its bare
    id: _parse_video_identifier on the id finds a cached URL, and that URL
    is the entry's own whenever the entry's URL carries more than the id. *)
Theorem search_then_lookup (cache : dict) (html_content : string) (max_results : nat)
  (e : Entry) :
  In e (search_results html_content max_results) ->
  exists v,
    parse_video_identifier
      (cache_search_results cache (search_results html_content max_results)) (video_id e)
    = (video_id e, Some v)
    /\ (endswith (url e) ("/" ++ video_id e ++ "/") = false -> v = url e).
Proof.
  intros Hin.
  destruct (search_results_inv html_content max_results) as (_ & Hnd & Hok).
  set (rs := search_results html_content max_results) in *.
  assert (He : search_entry_ok e) by (rewrite Forall_forall in Hok; apply Hok, Hin).
  destruct He as (Hd & Hurl & _).
  destruct (in_split _ _ Hin) as (pre & post & Ers).
  rewrite Ers in Hnd. rewrite map_app in Hnd. simpl in Hnd.
  apply NoDup_remove_2 in Hnd. rewrite in_app_iff in Hnd.
  assert (Hget : exists v, get (video_id e) (cache_search_results cache rs) = Some v
                 /\ (endswith (url e) ("/" ++ video_id e ++ "/") = false -> v = url e)).
  { rewrite Ers. unfold cache_search_results. rewrite fold_left_app. simpl.
    match goal with
    | |- context [fold_left cache_one post ?x] =>
        change (fold_left cache_one post x) with (cache_search_results x post)
    end.
    rewrite cache_fold_other by tauto.
    apply cache_one_same.
    - apply isdigit_nonempty. exact Hd.
    - rewrite Hurl. destruct (full_path e); discriminate.
    - rewrite Hurl. apply has_slash_root. }
  destruct Hget as (v & Hg & Hv). exists v. split; [ | exact Hv ].
  unfold parse_video_identifier. rewrite strip_digits by exact Hd.
  rewrite split_slash_isdigit by exact Hd. rewrite find_get, Hg. reflexivity.
Qed.

Lemma search_then_lookup_witness :
  let e0 := {| video_id := "101"; url := ROOT_URL ++ "/video/101/first-clip/";
               full_path := "/video/101/first-clip/"; slug := Some "first-clip" |} in
  In e0 (search_results (listing_page sample_items sample_tail) 10) /\
  exists v,
    parse_video_identifier
      (cache_search_results [] (search_results (listing_page sample_items sample_tail) 10))
      (video_id e0)
    = (video_id e0, Some v)
    /\ (endswith (url e0) ("/" ++ video_id e0 ++ "/") = false -> v = url e0).
Proof.
  cbv zeta.
  assert (H : In {| video_id := "101"; url := ROOT_URL ++ "/video/101/first-clip/";
               full_path := "/video/101/first-clip/"; slug := Some "first-clip" |}
             (search_results (listing_page sample_items sample_tail) 10))
    by (vm_compute; left; reflexivity).
  split; [ exact H | apply (search_then_lookup [] _ 10 _ H) ].
Defined.

Lemma keys_set_in (k x v : string) (m : dict) :
  In k (keys (set x v m)) <-> In k (keys m) \/ k = x.
Proof.
  rewrite keys_set. destruct (mem x m) eqn:E.
  - apply mem_true_iff in E. split; [ tauto | intros [H | ->]; assumption ].
  - rewrite in_app_iff. simpl. split; intros [H | H].
    + left. exact H.
    + right. destruct H as [-> | []]. reflexivity.
    + left. exact H.
    + right. left. symmetry. exact H.
Qed.

Lemma cache_one_keys (c : dict) (e : Entry) (k : string) :
  In k (keys (cache_one c e)) <->
  In k (keys c) \/ (k = video_id e /\ video_id e <> "" /\ url e <> "").
Proof.
  unfold cache_one. cbv zeta.
  destruct (String.eqb_spec (video_id e) "") as [Ev|Ev]; cbn [negb andb];
    [ split; [ tauto | intros [H | (_ & H & _)]; [ exact H | contradiction ] ] | ].
  destruct (String.eqb_spec (url e) "") as [Eu|Eu]; cbn [negb andb];
    [ split; [ tauto | intros [H | (_ & _ & H)]; [ exact H | contradiction ] ] | ].
  destruct (has_char "/" (url e) && negb (endswith (url e) ("/" ++ video_id e ++ "/"))).
  - rewrite keys_set_in. tauto.
  - destruct (mem (video_id e) c) eqn:Em; cbn [negb].
    + apply mem_true_iff in Em. split; [ tauto | intros [H | (-> & _)]; assumption ].
    + rewrite keys_set_in. tauto.
Qed.

Lemma cache_one_nodup (c : dict) (e : Entry) : NoDup (keys c) -> NoDup (keys (cache_one c e)).
Proof.
  intros H. unfold cache_one. cbv zeta.
  repeat match goal with |- context [if ?b then _ else _] => destruct b end;
  try exact H; apply set_nodup, H.
Qed.

(** Caching the results of a search keeps the cache's ids distinct, keeps
    every id already cached, and adds exactly the ids of the results whose
    id and URL are both non-empty. *)
Theorem cache_search_results_keys (cache : dict) (results : list Entry) :
  NoDup (keys cache) ->
  NoDup (keys (cache_search_results cache results)) /\
  (forall k, In k (keys (cache_search_results cache results)) <->
     In k (keys cache) \/
     exists e, In e results /\ k = video_id e /\ video_id e <> "" /\ url e <> "").
Proof.
  unfold cache_search_results. revert cache.
  induction results as [|e rs IH]; intros cache Hnd; simpl.
  - split; [ exact Hnd | intros k; split; [ tauto | intros [H | (e & [] & _)]; exact H ] ].
  - destruct (IH (cache_one cache e) (cache_one_nodup cache e Hnd)) as [Hn Hk].
    split; [ exact Hn | intros k ]. rewrite Hk, cache_one_keys. split.
    + intros [[H | H] | (e' & H1 & H2)]; [ tauto | right; exists e; tauto | right; exists e'; tauto ].
    + intros [H | (e' & [<- | H1] & H2)]; [ tauto | left; right; exact H2 | right; exists e'; tauto ].
Qed.

Lemma cache_search_results_keys_witness :
  NoDup (keys []) /\
  NoDup (keys (cache_search_results [] (search_results (listing_page sample_items sample_tail) 10))).
Proof.
  assert (H : NoDup (keys [])) by constructor.
  split; [ exact H | apply (cache_search_results_keys [] _ H) ].
Defined.

End ListingInvariants.

(** ** The first href pattern of Client.search *)
Module SearchProofs.
Import Text TextFacts Listing Samples ListingProofs ListingInvariants.
Open Scope string_scope.

(** The ids captured by the relative-link pattern of Client.search (a
    quoted href to /video/ID/SLUG or /videos/ID/SLUG), in page order. *)
Definition p1_ids (html_content : string) : list string :=
  map (fun m => snd (fst m)) (findall search_p1_at html_content).

Lemma findall_p1_isdigit (html_content : string) :
  Forall (fun m => isdigit (snd (fst m)) = true) (findall search_p1_at html_content).
Proof.
  apply Forall_forall. intros [[fp d] sl] H. unfold findall in H.
  apply scan_in in H as (s & rest & E). unfold search_p1_at in E.
  destruct (ci_take "href=" s) as [[_ [|q t]]|]; try discriminate.
  destruct (is_quote q); [|discriminate].
  exact (link_path_isdigit _ _ _ _ _ _ _ E).
Qed.

Lemma dedup_cons_ne (x : string) (r : list string) : dedup (x :: r) <> [].
Proof. unfold dedup. simpl. discriminate. Qed.

(** C9 refuted: a page with one relative link and two absolute links
    (three distinct ids) gives one entry for max_results = 2: the
    relative-link pattern finds one result, and the pattern that also
    reads absolute URLs is then not tried. *)
Lemma search_absolute_links_ignored :
  map video_id (search_results
    ("<a href='/video/1/a/'>x</a>" ++
     "<a href='https://rule34video.com/video/2/b/'>y</a>" ++
     "<a href='https://rule34video.com/video/3/c/'>z</a>") 2) = ["1"].
Proof. vm_compute. reflexivity. Qed.

(** C9 as the code does it: on any page where the relative-link pattern
    [href="/video/<id>/<slug>"] finds a link, Client.search with a positive
    max_results takes its entries from that pattern alone: the first
    max_results distinct ids among those links, in the order they first
    appear, no id twice (a repeated link is skipped), so exactly
    max_results entries when those links carry that many distinct ids. *)
Theorem search_first_pattern (html_content : string) (n : nat)
  (Hn : (0 < n)%nat) (Hp : p1_ids html_content <> []) :
  let es := search_results html_content n in
  map video_id es = firstn n (dedup (p1_ids html_content)) /\
  List.length es = Nat.min n (List.length (dedup (p1_ids html_content))) /\
  NoDup (map video_id es).
Proof.
  intros es.
  pose proof (fold_search_step n _ [] [] (findall_p1_isdigit html_content)
                (Nat.le_0_l n)) as HR.
  cbn [map app] in HR. fold (p1_ids html_content) in HR.
  change (dedup_acc [] (p1_ids html_content)) with (dedup (p1_ids html_content)) in HR.
  assert (E : map video_id es = firstn n (dedup (p1_ids html_content))).
  { unfold es, search_results.
    destruct (fold_left (search_step n) (findall search_p1_at html_content) ([], []))
      as [seen R] eqn:ER.
    cbn [snd] in HR |- *.
    destruct R as [|e R]; [|exact HR].
    exfalso. destruct (p1_ids html_content) as [|x r]; [contradiction|].
    destruct (dedup (x :: r)) as [|y l] eqn:Ed; [exact (dedup_cons_ne x r Ed)|].
    destruct n as [|n]; [lia | discriminate HR]. }
  split; [exact E|]. split.
  - rewrite <- (length_map video_id), E, length_firstn. reflexivity.
  - rewrite E. apply nodup_firstn, dedup_acc_nodup.
Qed.

Lemma search_first_pattern_witness :
  (0 < 2)%nat /\ p1_ids (listing_page sample_items sample_tail) <> [] /\
  map video_id (search_results (listing_page sample_items sample_tail) 2) = ["101"; "202"].
Proof.
  split; [lia|]. split; [vm_compute; discriminate|].
  destruct (search_first_pattern (listing_page sample_items sample_tail) 2 ltac:(lia)
              ltac:(vm_compute; discriminate)) as [E _].
  rewrite E. vm_compute. reflexivity.
Defined.

End SearchProofs.


(* ------------------------------------------------------------------ *)
(** ** Video._get_url_variants and Video.load *)
Module VariantProofs.
Import Text TextFacts PyDict DictFacts Urls Fetch ListingProofs.
Open Scope string_scope.

Lemma in_dedup_acc (seen l : list string) (x : string) :
  In x (dedup_acc seen l) <-> In x l /\ ~ In x seen.
Proof.
  revert seen; induction l as [|v l IH]; intros seen; simpl; [ tauto | ].
  destruct (existsb (String.eqb v) seen) eqn:E.
  - rewrite IH. split; [ tauto | ].
    intros [[Hv | H] Hs]; [ | tauto ].
    exfalso. apply Hs. subst v. apply existsb_exists in E as [y [Hy Ey]].
    apply String.eqb_eq in Ey. subst. exact Hy.
  - simpl. rewrite IH. simpl. split.
    + intros [Hv | [H Hs]]; [ | tauto ].
      subst v. split; [ left; reflexivity | ].
      intros Hin. assert (existsb (String.eqb x) seen = true)
        by (apply existsb_exists; exists x; split; [ exact Hin | apply String.eqb_refl ]).
      congruence.
    + intros [[Hv | H] Hs]; [ left; exact Hv | ].
      destruct (String.eqb_spec v x); [ left; assumption | right; split; [ exact H | tauto ] ].
Qed.

Lemma in_dedup (l : list string) (x : string) : In x (dedup l) <-> In x l.
Proof. unfold dedup. rewrite in_dedup_acc. simpl. tauto. Qed.

(** The candidate URLs of a video never repeat, and always include the
    four id-only forms (singular and plural path, with and without the
    trailing slash). *)
Theorem url_variants_nodup_fallbacks (vid : string) (full_url : option string) :
  let l := get_url_variants vid full_url in
  NoDup l /\
  In (ROOT_URL ++ "/video/" ++ vid ++ "/") l /\ In (ROOT_URL ++ "/videos/" ++ vid ++ "/") l /\
  In (ROOT_URL ++ "/video/" ++ vid) l /\ In (ROOT_URL ++ "/videos/" ++ vid) l.
Proof.
  cbv zeta. unfold get_url_variants.
  split; [ apply dedup_acc_nodup | ].
  repeat split; apply in_dedup, in_or_app; right; simpl; tauto.
Qed.

(** A known, non-empty full URL is the first candidate tried, made
    absolute on the site origin when it does not start with "http". *)
Theorem url_variants_known_first (vid f : string) :
  f <> "" ->
  hd_error (get_url_variants vid (Some f))
  = Some (if startswith f "http" then f else ROOT_URL ++ f).
Proof.
  intros Hf. unfold get_url_variants.
  apply String.eqb_neq in Hf. rewrite Hf. reflexivity.
Qed.

(** [load] ends with a page exactly when some candidate is accepted
    before any attempt raises an exception that [load] does not catch, and
    the page is that of the first accepted candidate: every earlier
    candidate was rejected without such an exception. *)
Theorem load_first_accepted (fetch : string -> Outcome) (urls : list string)
  (u b : string) :
  load fetch urls = Loaded u b <->
  exists pre post, urls = (pre ++ u :: post)%list /\ fetch u = Response 200 b
                   /\ page_accepted b = true
                   /\ Forall (fun v => outcome_accepted (fetch v) = false
                                       /\ first_uncaught [fetch v] = None) pre.
Proof.
  unfold load. generalize (@None string) at 1 as le.
  induction urls as [|v urls IH]; intros le; simpl.
  - split; [ destruct le; discriminate | ].
    intros (pre & post & E & _). destruct pre; discriminate.
  - destruct (fetch v) as [status html|e|x] eqn:Ev.
    + destruct (Z.eqb_spec status 404) as [E404|N404].
      * rewrite IH. split.
        -- intros (pre & post & E & R). exists (v :: pre), post.
           split; [ rewrite E; reflexivity | split; [ apply R | split; [ apply R | ] ] ].
           constructor; [ rewrite Ev; simpl; rewrite E404; split; reflexivity | apply R ].
        -- intros (pre & post & E & R1 & R2 & R3). destruct pre as [|w pre].
           ++ inversion E; subst. congruence.
           ++ inversion E; subst. inversion R3; subst. exists pre, post. auto.
      * destruct (Z.eqb_spec status 200) as [E200|N200]; simpl.
        -- destruct (page_accepted html) eqn:Ea.
           ++ split.
              ** intros H. inversion H; subst. exists [], urls. auto.
              ** intros (pre & post & E & R1 & R2 & R3). destruct pre as [|w pre].
                 --- inversion E; subst. rewrite Ev in R1. inversion R1; subst. reflexivity.
                 --- inversion E; subst. inversion R3 as [|? ? [Hw _]]; subst.
                     rewrite Ev in Hw. unfold outcome_accepted in Hw. rewrite Ea, andb_true_r in Hw.
                     apply Z.eqb_neq in Hw. lia.
           ++ rewrite IH. split.
              ** intros (pre & post & E & R). exists (v :: pre), post.
                 split; [ rewrite E; reflexivity | split; [ apply R | split; [ apply R | ] ] ].
                 constructor; [ rewrite Ev; simpl; rewrite Ea, andb_false_r; split; reflexivity | apply R ].
              ** intros (pre & post & E & R1 & R2 & R3). destruct pre as [|w pre].
                 --- inversion E; subst. rewrite Ev in R1. inversion R1; subst. congruence.
                 --- inversion E; subst. inversion R3; subst. exists pre, post. auto.
        -- rewrite IH. split.
           ** intros (pre & post & E & R). exists (v :: pre), post.
              split; [ rewrite E; reflexivity | split; [ apply R | split; [ apply R | ] ] ].
              constructor; [ rewrite Ev; simpl; split; [ | reflexivity ] | apply R ].
              destruct (Z.eqb_spec status 200); [ contradiction | reflexivity ].
           ** intros (pre & post & E & R1 & R2 & R3). destruct pre as [|w pre].
              --- inversion E; subst. rewrite Ev in R1. inversion R1; subst. contradiction.
              --- inversion E; subst. inversion R3; subst. exists pre, post. auto.
    + rewrite IH. split.
      * intros (pre & post & E & R). exists (v :: pre), post.
        split; [ rewrite E; reflexivity | split; [ apply R | split; [ apply R | ] ] ].
        constructor; [ rewrite Ev; split; reflexivity | apply R ].
      * intros (pre & post & E & R1 & R2 & R3). destruct pre as [|w pre].
        -- inversion E; subst. congruence.
        -- inversion E; subst. inversion R3; subst. exists pre, post. auto.
    + split; [ discriminate | ].
      intros (pre & post & E & R1 & R2 & R3). destruct pre as [|w pre].
      * inversion E; subst. congruence.
      * inversion E; subst. inversion R3 as [|? ? [_ Hw]]; subst.
        rewrite Ev in Hw. discriminate Hw.
Qed.


Lemma url_variants_known_first_witness :
  "/video/101/first-clip/" <> "" /\
  hd_error (get_url_variants "101" (Some "/video/101/first-clip/"))
  = Some (ROOT_URL ++ "/video/101/first-clip/").
Proof.
  assert (H : "/video/101/first-clip/" <> "") by discriminate.
  split; [ exact H | apply (url_variants_known_first "101" _ H) ].
Defined.

End VariantProofs.

(* ------------------------------------------------------------------ *)
(** ** utils.normalize_quality, utils.select_best_quality and
       Video.get_video_url *)
Module SelectExtras.
Import Text TextFacts PyDict DictFacts Select SelectProofs ListingProofs FormatProofs.
Open Scope string_scope.

Lemma hd_error_in {A : Type} (l : list A) (x : A) : hd_error l = Some x -> In x l.
Proof. destruct l; simpl; [ discriminate | intros [= ->]; left; reflexivity ]. Qed.

(** Normalising a string never raises. *)
Lemma normalize_str_ok (s : string) : exists t, normalize_quality (QStr s) = Ok t.
Proof.
  unfold normalize_quality. cbv zeta.
  repeat match goal with |- context [if ?b then _ else _] => destruct b end;
  try (eexists; reflexivity).
  destruct (first_digit_run _); eexists; reflexivity.
Qed.

(** The result of [select_best_quality]. *)
Lemma select_member (available_qualities : list string) (target : string) :
  (select_best_quality available_qualities target = Ok None <-> available_qualities = []) /\
  (existsb get_resolution_raises available_qualities = true ->
   select_best_quality available_qualities target = ValueError) /\
  (forall q, select_best_quality available_qualities target = Ok (Some q) ->
             In q available_qualities).
Proof.
  destruct available_qualities as [|a r] eqn:El;
    [ split; [ tauto | split; [ discriminate | discriminate ] ] | ].
  rewrite <- El.
  assert (Hne : sort_desc available_qualities <> []).
  { intros H. assert (In a (sort_desc available_qualities))
      by (apply in_sort_desc; rewrite El; left; reflexivity).
    rewrite H in *. contradiction. }
  assert (Hin : forall q, In q (sort_desc available_qualities) -> In q available_qualities)
    by (intros q; apply in_sort_desc).
  assert (Hl : available_qualities <> []) by (rewrite El; discriminate).
  assert (Hunf : select_best_quality available_qualities target =
    if existsb get_resolution_raises available_qualities then ValueError else
    let sorted_qualities := sort_desc available_qualities in
    py_bind (normalize_quality (QStr target)) (fun target =>
    if String.eqb target "best" then Ok (hd_error sorted_qualities)
    else if String.eqb target "worst" then Ok (Some (last sorted_qualities ""))
    else if String.eqb target "half" then
      Ok (nth_error sorted_qualities (Nat.div (List.length sorted_qualities) 2))
    else if get_resolution_raises target then ValueError else
      let target_res := get_resolution target in
      match find (fun q => (get_resolution q =? target_res)%Z) sorted_qualities with
      | Some q => Ok (Some q)
      | None =>
          match find (fun q => (get_resolution q <=? target_res)%Z) sorted_qualities with
          | Some q => Ok (Some q)
          | None => Ok (Some (last sorted_qualities ""))
          end
      end)) by (rewrite El; reflexivity).
  rewrite Hunf. clear Hunf.
  destruct (existsb get_resolution_raises available_qualities).
  { split; [ split; [ discriminate | contradiction ] | split; [ reflexivity | discriminate ] ]. }
  destruct (normalize_str_ok target) as [t Ht]. rewrite Ht. cbv zeta. cbn [py_bind].
  split; [ | split; [ discriminate | ] ].
  - split; [ | contradiction ].
    destruct (String.eqb t "best").
    { destruct (sort_desc available_qualities); [ contradiction | discriminate ]. }
    destruct (String.eqb t "worst"); [ discriminate | ].
    destruct (String.eqb t "half").
    { intros [= H]. apply nth_error_None in H. revert H Hne.
      destruct (sort_desc available_qualities) as [|x s]; intros H Hne; [ contradiction | ].
      assert (fst (Nat.divmod (List.length (x :: s)) 1 0 1) < List.length (x :: s))%nat
        by (apply (Nat.div_lt _ 2); simpl; lia). exfalso. lia. }
    destruct (get_resolution_raises t); [ discriminate | ].
    destruct (find _ _); [ discriminate | ].
    destruct (find _ _); discriminate.
  - intros q.
    destruct (String.eqb t "best").
    { intros [= H]. apply Hin, hd_error_in, H. }
    destruct (String.eqb t "worst").
    { intros [= <-]. apply Hin, last_in, Hne. }
    destruct (String.eqb t "half").
    { intros [= H]. apply Hin. eapply nth_error_In. exact H. }
    destruct (get_resolution_raises t); [ discriminate | ].
    match goal with |- match find ?f ?l with _ => _ end = _ -> _ =>
      destruct (find f l) as [q1|] eqn:E1 end.
    { intros [= <-]. apply Hin. apply find_some in E1. apply E1. }
    match goal with |- match find ?f ?l with _ => _ end = _ -> _ =>
      destruct (find f l) as [q2|] eqn:E2 end.
    { intros [= <-]. apply Hin. apply find_some in E2. apply E2. }
    intros [= <-]. apply Hin, last_in, Hne.
Qed.


(** [get_video_url] on a loaded map gives [None] only when the map is
    empty, and any URL it gives is one of the map's values. *)
Theorem get_video_url_member (quality_urls : dict) (quality : QualityArg) :
  (get_video_url quality_urls quality = Ok None <-> quality_urls = []) /\
  (forall v, get_video_url quality_urls quality = Ok (Some v) -> In v (values quality_urls)).
Proof.
  assert (Hval : forall k v, get k quality_urls = Some v -> In v (values quality_urls)).
  { intros k v H. apply get_some_in in H. unfold values.
    change v with (snd (k, v)). apply in_map, H. }
  destruct quality_urls as [|kv r] eqn:Em; [ split; [ tauto | discriminate ] | ].
  rewrite <- Em in *.
  assert (Hk : keys quality_urls <> []) by (rewrite Em; discriminate).
  assert (Hhd : exists v, hd_error (values quality_urls) = Some v
                          /\ In v (values quality_urls))
    by (rewrite Em; destruct kv; eexists; split; [ reflexivity | left; reflexivity ]).
  assert (Hgo : (get_video_url quality_urls quality <> Ok None) /\
                (forall v, get_video_url quality_urls quality = Ok (Some v) ->
                           In v (values quality_urls))).
  { rewrite Em. cbv zeta. cbn [get_video_url]. rewrite <- Em.
    destruct (normalize_quality quality) as [q|]; cbn [py_bind];
      [ | split; discriminate ].
    destruct (mem q quality_urls) eqn:Emem.
    { apply mem_true_iff, in_keys_get in Emem as [v Hv]. rewrite Hv.
      split; [ discriminate | intros v' [= <-]; eapply Hval; exact Hv ]. }
    destruct (select_best_quality (keys quality_urls) q) as [[sel|]|] eqn:Es;
      cbn [py_bind]; [ | | split; discriminate ].
    2: { apply select_member in Es. contradiction. }
    destruct (String.eqb sel "").
    { destruct Hhd as [v [Hv Hin]]. rewrite Hv.
      split; [ discriminate | intros v' [= <-]; exact Hin ]. }
    apply (proj2 (proj2 (select_member _ _))) in Es.
    apply in_keys_get in Es as [v Hv]. rewrite Hv.
    split; [ discriminate | intros v' [= <-]; eapply Hval; exact Hv ]. }
  split; [ | apply Hgo ].
  split; [ intros H; exfalso; apply (proj1 Hgo), H | intros H; rewrite Em in H; discriminate ].
Qed.

Lemma uint_digit_chars (d : Decimal.uint) :
  forallb is_digit_char (list_ascii_of_string (NilEmpty.string_of_uint d)) = true.
Proof. induction d; simpl; auto. Qed.

(** The rendering of a non-negative int: non-empty, all [\d] digits. *)
Lemma z_to_string_digits (n : Z) : (0 <= n)%Z ->
  z_to_string n <> "" /\ forallb is_digit_char (list_ascii_of_string (z_to_string n)) = true.
Proof.
  intros Hn. destruct (z_to_string_nonneg n Hn) as (d & -> & Hd & _).
  split; [ destruct d; [ contradiction | discriminate .. ] | apply uint_digit_chars ].
Qed.

Lemma lower_app (s t : string) : lower (s ++ t) = lower s ++ lower t.
Proof. induction s as [|c s IH]; simpl; [ reflexivity | rewrite IH; reflexivity ]. Qed.

Lemma lower_char_digit (c : ascii) : is_digit_char c = true -> lower_char c = c.
Proof.
  intros H. destruct c as [[] [] [] [] [] [] [] []];
    vm_compute in H |- *; first [ reflexivity | discriminate H ].
Qed.

Lemma lower_digits (d : string) :
  forallb is_digit_char (list_ascii_of_string d) = true -> lower d = d.
Proof.
  induction d as [|c d IH]; simpl; [ reflexivity | ].
  intros H. apply andb_prop in H as [H1 H2]. rewrite lower_char_digit, IH by assumption.
  reflexivity.
Qed.

Lemma eqb_digit_letter (c a : ascii) (x w : string) :
  is_digit_char c = true -> is_digit_char a = false -> String.eqb (String c x) (String a w) = false.
Proof. intros Hc Ha. apply String.eqb_neq. intros E. inversion E; subst. congruence. Qed.

Lemma span_digits_fst (s : string) :
  forallb is_digit_char (list_ascii_of_string (fst (span_digits s))) = true.
Proof.
  induction s as [|c s IH]; simpl; [ reflexivity | ].
  destruct (is_digit_char c) eqn:Ec; [ | reflexivity ].
  destruct (span_digits s) as [d t]. simpl in *. rewrite Ec. exact IH.
Qed.

Lemma first_digit_run_digits (s d : string) : first_digit_run s = Some d ->
  d <> "" /\ forallb is_digit_char (list_ascii_of_string d) = true.
Proof.
  revert d. induction s as [|c s IH]; intros d; cbn [first_digit_run]; [ discriminate | ].
  destruct (is_digit_char c) eqn:Ec; [ | apply IH ].
  intros [= <-]. split; [ | exact (span_digits_fst (String c s)) ].
  simpl. rewrite Ec. destruct (span_digits s). discriminate.
Qed.

(** A normalised numeric label [d ++ "p"] normalises to itself. *)
Lemma normalize_digits_p (d : string) :
  d <> "" -> forallb is_digit_char (list_ascii_of_string d) = true ->
  normalize_quality (QStr (d ++ "p")) = Ok (d ++ "p").
Proof.
  intros Hne Hd. destruct d as [|c d']; [ contradiction | ].
  pose proof Hd as Hc. simpl in Hc. apply andb_prop in Hc as [Hc Hd'].
  unfold normalize_quality.
  rewrite lower_app, lower_digits by exact Hd.
  change (lower "p") with "p".
  unfold strip. change (String c d' ++ "p") with (String c (d' ++ "p")).
  rewrite lstrip_by_stop by (apply digit_not_space, Hc).
  change (String c (d' ++ "p")) with (String c d' ++ "p").
  rewrite rstrip_by_snoc by reflexivity.
  change (String c d' ++ "p") with (String c (d' ++ "p")).
  cbn [existsb].
  rewrite !eqb_digit_letter by (exact Hc || reflexivity). cbn [orb].
  cbn [first_digit_run]. rewrite Hc.
  change (String c (d' ++ "p")) with (String c d' ++ String "p" EmptyString).
  rewrite span_digits_app by (exact Hd || reflexivity).
  reflexivity.
Qed.

(** A string quality always normalises, without raising, to "best",
    "worst", "half" or a non-empty run of digits followed by "p", and
    normalising the result again changes nothing. *)
Theorem normalize_quality_str_shape_idempotent (s : string) :
  exists r, normalize_quality (QStr s) = Ok r /\
  (r = "best" \/ r = "worst" \/ r = "half" \/
   exists d, d <> "" /\ forallb is_digit_char (list_ascii_of_string d) = true /\ r = d ++ "p") /\
  normalize_quality (QStr r) = Ok r.
Proof.
  assert (Hshape : exists r, normalize_quality (QStr s) = Ok r /\
     (r = "best" \/ r = "worst" \/ r = "half" \/
      exists d, d <> "" /\ forallb is_digit_char (list_ascii_of_string d) = true /\ r = d ++ "p")).
  { unfold normalize_quality. cbv zeta.
    destruct (existsb _ ["best"; "highest"; "max"]); [ eexists; split; [ reflexivity | left; reflexivity ] | ].
    destruct (existsb _ ["worst"; "lowest"; "min"]);
      [ eexists; split; [ reflexivity | right; left; reflexivity ] | ].
    destruct (existsb _ ["half"; "medium"; "mid"]);
      [ eexists; split; [ reflexivity | right; right; left; reflexivity ] | ].
    destruct (first_digit_run _) as [d|] eqn:E;
      [ | eexists; split; [ reflexivity | left; reflexivity ] ].
    eexists; split; [ reflexivity | ]. right; right; right. exists d.
    destruct (first_digit_run_digits _ _ E) as [H1 H2]. auto. }
  destruct Hshape as (r & Hr & Hs). exists r. split; [ exact Hr | split; [ exact Hs | ] ].
  destruct Hs as [-> | [-> | [-> | (d & Hne & Hd & ->)]]]; try reflexivity.
  apply normalize_digits_p; assumption.
Qed.

Lemma normalize_int_bound (B n : Z) :
  (10 ^ Z.of_nat int_max_str_digits)%Z = B -> (0 <= n)%Z ->
  (normalize_quality (QInt n) = ValueError <-> (B <= n)%Z) /\
  (forall r, normalize_quality (QInt n) = Ok r ->
     r = z_to_string n ++ "p" /\ isdigit (z_to_string n) = true /\
     normalize_quality (QStr r) = Ok r).
Proof.
  intros EB Hn. cbn [normalize_quality]. unfold int_to_str. rewrite EB, Z.abs_eq by exact Hn.
  destruct (Z.leb_spec B n) as [H|H]; cbn [py_bind].
  - split; [ tauto | discriminate ].
  - split; [ split; [ discriminate | lia ] | ].
    intros r [= <-]. destruct (z_to_string_digits n Hn) as [Hne Hd].
    split; [ reflexivity | split ].
    + destruct (z_to_string n) as [|c w]; [ contradiction | ].
      apply digits_isdigit_chars, Hd.
    + apply normalize_digits_p; assumption.
Qed.

(** An int quality [n >= 0] raises [ValueError] exactly when [n] has more
    than 4300 digits; otherwise it normalises to the digits of [n]
    followed by "p", which normalising as a string keeps unchanged. *)
Theorem normalize_quality_int_idempotent (n : Z) :
  (0 <= n)%Z ->
  (normalize_quality (QInt n) = ValueError <-> (10 ^ 4300 <= n)%Z) /\
  (forall r, normalize_quality (QInt n) = Ok r ->
     r = z_to_string n ++ "p" /\ isdigit (z_to_string n) = true /\
     normalize_quality (QStr r) = Ok r).
Proof. exact (normalize_int_bound (10 ^ 4300) n eq_refl). Qed.

Lemma normalize_quality_int_idempotent_witness :
  (0 <= 720)%Z /\
  ((normalize_quality (QInt 720) = ValueError <-> (10 ^ 4300 <= 720)%Z) /\
   (forall r, normalize_quality (QInt 720) = Ok r ->
      r = z_to_string 720 ++ "p" /\ isdigit (z_to_string 720) = true /\
      normalize_quality (QStr r) = Ok r)).
Proof.
  assert (H : (0 <= 720)%Z) by lia.
  split; [ exact H | apply (normalize_quality_int_idempotent 720 H) ].
Defined.

End SelectExtras.

(* ------------------------------------------------------------------ *)
(** ** Video._clean_video_url, Video._extract_quality_from_url and
       utils.extract_video_id *)
Module CleanProofs.
Import Text TextFacts Urls Select Clean SelectExtras.
Open Scope string_scope.

(** Every doubled slash of [s] comes right after a colon. *)
Definition dslash_after_colon (s : string) : Prop :=
  forall a b, s = a ++ "//" ++ b -> exists a', a = a' ++ ":".

(** Every doubled slash of [s] is at its start or right after a colon. *)
Definition dslash_start_or_colon (s : string) : Prop :=
  forall a b, s = a ++ "//" ++ b -> a = "" \/ exists a', a = a' ++ ":".

Lemma dslash_cons (c : ascii) (x : string) :
  dslash_after_colon x -> (c = "/"%char -> forall y, x <> String "/" y) ->
  dslash_after_colon (String c x).
Proof.
  intros Hx Hc [|c' a] b E; simpl in E.
  - inversion E; subst. exfalso. eapply Hc; reflexivity.
  - inversion E; subst. destruct (Hx a b eq_refl) as [a' ->].
    exists (String c' a'). reflexivity.
Qed.

Lemma dslash_cons_start (c : ascii) (x : string) :
  dslash_after_colon x -> dslash_start_or_colon (String c x).
Proof.
  intros Hx [|c' a] b E; [ left; reflexivity | right ].
  simpl in E. inversion E; subst. destruct (Hx a b eq_refl) as [a' ->].
  exists (String c' a'). reflexivity.
Qed.

Lemma dslash_colon (x : string) :
  dslash_start_or_colon x -> dslash_after_colon (String ":" x).
Proof.
  intros Hx [|c' a] b E; simpl in E; inversion E; subst.
  destruct (Hx a b eq_refl) as [-> | [a' ->]].
  - exists "". reflexivity.
  - exists (String ":" a'). reflexivity.
Qed.

Lemma dslash_after_start (x : string) :
  dslash_after_colon x -> dslash_start_or_colon x.
Proof. intros Hx a b E. right. apply (Hx a b E). Qed.

Lemma dslash_not_start (x : string) :
  dslash_start_or_colon x -> (forall y, x <> "//" ++ y) -> dslash_after_colon x.
Proof.
  intros Hx Hn a b E. destruct (Hx a b E) as [-> | H]; [ | exact H ].
  exfalso. apply (Hn b). exact E.
Qed.

Lemma collapse_nil (f : nat) : collapse_slashes_fuel f "" = "".
Proof. destruct f; reflexivity. Qed.

Lemma collapse_head (f : nat) (c : ascii) (r : string) :
  exists y, collapse_slashes_fuel f (String c r) = String c y.
Proof.
  destruct f as [|g]; [ exists r; reflexivity | ].
  cbn [collapse_slashes_fuel].
  destruct (negb (Ascii.eqb c ":") && String.prefix "//" r); eexists; reflexivity.
Qed.

Lemma prefix_cons (a c : ascii) (p r : string) :
  String.prefix (String a p) (String c r) = if ascii_dec a c then String.prefix p r else false.
Proof. reflexivity. Qed.

Lemma prefix_dslash (r : string) :
  String.prefix "//" r = true -> exists z, r = "//" ++ z.
Proof.
  intros H. destruct r as [|c1 r]; [ discriminate H | ].
  rewrite prefix_cons in H. destruct (ascii_dec "/" c1) as [<-|]; [ | discriminate H ].
  destruct r as [|c2 z]; [ discriminate H | ].
  rewrite prefix_cons in H. destruct (ascii_dec "/" c2) as [<-|]; [ | discriminate H ].
  exists z. reflexivity.
Qed.

Lemma prefix_cons_same (a : ascii) (p r : string) :
  String.prefix (String a p) (String a r) = String.prefix p r.
Proof. rewrite prefix_cons. destruct (ascii_dec a a); [ reflexivity | contradiction ]. Qed.

Lemma prefix_dslash_app (z : string) : String.prefix "//" ("//" ++ z) = true.
Proof. simpl append. rewrite !prefix_cons_same. destruct z; reflexivity. Qed.

Lemma collapse_starts2 (f : nat) (s y : string) :
  collapse_slashes_fuel f s = "//" ++ y -> exists z, s = "//" ++ z.
Proof.
  destruct f as [|g]; [ intros H; simpl in H; subst s; eexists; reflexivity | ].
  destruct s as [|c r]; [ discriminate | ].
  cbn [collapse_slashes_fuel].
  destruct (negb (Ascii.eqb c ":") && String.prefix "//" r) eqn:E.
  - intros H. inversion H; subst. apply andb_prop in E as [_ E].
    apply prefix_dslash in E as [z ->]. exists (String "/" z). reflexivity.
  - intros H. inversion H as [[Hc Hr]]; subst.
    destruct r as [|c2 r2]; [ rewrite collapse_nil in Hr; discriminate | ].
    destruct (collapse_head g c2 r2) as [y' Hy]. rewrite Hy in Hr.
    inversion Hr; subst. exists r2. reflexivity.
Qed.

Lemma drop_slashes_len (r : string) : (String.length (drop_slashes r) <= String.length r)%nat.
Proof.
  induction r as [|c r IH]; simpl; [ lia | ].
  destruct (Ascii.eqb c "/"); simpl; lia.
Qed.

Lemma drop_slashes_head (r y : string) : drop_slashes r <> String "/" y.
Proof.
  induction r as [|c r IH]; simpl; [ discriminate | ].
  destruct (Ascii.eqb_spec c "/") as [->|Hc]; [ exact IH | ].
  intros E. inversion E. contradiction.
Qed.

Lemma collapse_no_slash_head (f : nat) (r : string) :
  (forall y, r <> String "/" y) -> forall y, collapse_slashes_fuel f r <> String "/" y.
Proof.
  intros Hr y E. destruct r as [|c r']; [ rewrite collapse_nil in E; discriminate | ].
  destruct (collapse_head f c r') as [y' Hy]. rewrite Hy in E. inversion E; subst.
  eapply Hr; reflexivity.
Qed.

Lemma collapse_dslash (f : nat) (s : string) :
  (String.length s <= f)%nat -> dslash_start_or_colon (collapse_slashes_fuel f s).
Proof.
  revert s. induction f as [|g IH]; intros s Hs.
  - destruct s; [ | simpl in Hs; lia ].
    intros [|c a] b E; discriminate.
  - destruct s as [|c r]; [ intros [|c' a] b E; discriminate | ].
    simpl in Hs. cbn [collapse_slashes_fuel].
    destruct (negb (Ascii.eqb c ":") && String.prefix "//" r) eqn:E.
    + apply dslash_cons_start, dslash_cons; [ | intros _ ].
      * apply dslash_not_start.
        -- apply IH. pose proof (drop_slashes_len r). lia.
        -- intros y Hy. apply (collapse_no_slash_head g (drop_slashes r))
             with (y := String "/" y); [ apply drop_slashes_head | exact Hy ].
      * apply collapse_no_slash_head, drop_slashes_head.
    + destruct (Ascii.eqb_spec c ":") as [->|Hc].
      * apply dslash_after_start, dslash_colon, IH. lia.
      * simpl in E. apply dslash_cons_start, dslash_not_start; [ apply IH; lia | ].
        intros y Hy. apply collapse_starts2 in Hy as [z ->].
        rewrite prefix_dslash_app in E. discriminate.
Qed.

Lemma prefix_slash (s : string) : String.prefix "/" s = true -> exists z, s = String "/" z.
Proof.
  intros H. destruct s as [|c z]; [ discriminate H | ].
  rewrite prefix_cons in H.
  destruct (ascii_dec "/" c) as [<-|]; [ exists z; reflexivity | discriminate H ].
Qed.

Lemma prefix_h (p s : string) : String.prefix (String "h" p) s = true -> forall y, s <> "//" ++ y.
Proof.
  intros H y ->. simpl append in H. rewrite prefix_cons in H.
  destruct (ascii_dec "h" "/") as [E|]; [ discriminate E | discriminate H ].
Qed.

Ltac dslash_prefix :=
  repeat match goal with
  | |- dslash_after_colon (String ?c _) =>
      tryif unify c ":"%char then fail
      else apply dslash_cons; [ | intros Hc; discriminate Hc || (intros y Hy; discriminate Hy) ]
  end.

(** The URL [_clean_video_url] returns never holds a doubled slash
    other than right after a colon (as in "https://"): runs of slashes
    inside the path are collapsed and a protocol-relative or site-relative
    URL gets its scheme and host. *)
Theorem clean_video_url_no_double_slash (url v : string) :
  clean_video_url url = Some v -> dslash_after_colon v.
Proof.
  unfold clean_video_url. destruct (String.eqb url "") ; [ discriminate | ].
  cbv zeta.
  match goal with |- context [collapse_slashes ?x] => generalize x as w end. intros w.
  assert (Hq : dslash_start_or_colon (collapse_slashes w))
    by (apply collapse_dslash; lia).
  revert Hq. generalize (collapse_slashes w) as c. intros c Hq.
  unfold startswith.
  destruct (String.prefix "http://" c) eqn:E1.
  { intros [= <-]. apply dslash_not_start; [ exact Hq | apply prefix_h with (p := "ttp://"), E1 ]. }
  destruct (String.prefix "https://" c) eqn:E2.
  { intros [= <-]. apply dslash_not_start; [ exact Hq | apply prefix_h with (p := "ttps://"), E2 ]. }
  simpl orb.
  destruct (String.prefix "//" c) eqn:E3.
  { intros [= <-]. change ("https:" ++ c) with (String "h" (String "t" (String "t" (String "p" (String "s" (String ":" c)))))).
    dslash_prefix. apply dslash_colon, Hq. }
  assert (Hr : dslash_after_colon c).
  { apply dslash_not_start; [ exact Hq | intros y ->; rewrite prefix_dslash_app in E3; discriminate ]. }
  destruct (String.prefix "/" c) eqn:E4.
  - intros [= <-]. apply prefix_slash in E4 as [z ->].
    unfold ROOT_URL.
    change ("https://rule34video.com" ++ String "/" z) with
      (String "h" (String "t" (String "t" (String "p" (String "s" (String ":"
        (String "/" (String "/" ("rule34video.com" ++ String "/" z))))))))).
    dslash_prefix. apply dslash_colon, dslash_cons_start, dslash_cons;
      [ | intros _ y Hy; discriminate Hy ].
    change ("rule34video.com" ++ String "/" z) with
      (String "r" (String "u" (String "l" (String "e" (String "3" (String "4" (String "v" (String "i" (String "d" (String "e" (String "o" (String "." (String "c" (String "o" (String "m" (String "/" z)))))))))))))))).
    dslash_prefix. exact Hr.
  - intros [= <-]. exact Hr.
Qed.

Lemma clean_video_url_no_double_slash_witness :
  clean_video_url " //cdn.example.com//media//720p.mp4" = Some "https://cdn.example.com/media/720p.mp4" /\
  dslash_after_colon "https://cdn.example.com/media/720p.mp4".
Proof.
  assert (H : clean_video_url " //cdn.example.com//media//720p.mp4"
              = Some "https://cdn.example.com/media/720p.mp4") by (vm_compute; reflexivity).
  split; [ exact H | apply (clean_video_url_no_double_slash _ _ H) ].
Defined.

Lemma span_digits_isdigit (s d t : string) :
  span_digits s = (d, t) -> d <> EmptyString ->
  forallb is_digit_char (list_ascii_of_string d) = true.
Proof.
  intros E Hd. pose proof (SelectExtras.span_digits_fst s) as H. rewrite E in H. exact H.
Qed.

Lemma search_some (attempt : string -> option string) (s g : string) :
  search attempt s = Some g -> exists t, attempt t = Some g.
Proof.
  intros H. induction s as [|c r IH]; simpl in H;
    destruct (attempt _) as [g'|] eqn:E; try (injection H as <-; eauto; fail);
    try discriminate H; auto.
Qed.

Lemma search_at_some (attempt : string -> option string) (s g : string) :
  search_at attempt s = Some g -> exists t, attempt t = Some g.
Proof.
  intros H. induction s as [|c r IH]; simpl in H;
    destruct (attempt _) as [g'|] eqn:E; try (injection H as <-; eauto; fail);
    try discriminate H; auto.
Qed.

(** A non-empty run of [\d] digits. *)
Definition digit_run (d : string) : Prop :=
  d <> EmptyString /\ forallb is_digit_char (list_ascii_of_string d) = true.

Lemma digits_attempt (t d : string) :
  match span_digits t with (EmptyString, _) => None | (d, _) => Some d end = Some d ->
  digit_run d.
Proof.
  destruct (span_digits t) as [d' t'] eqn:E. destruct d' as [|c r]; [ discriminate | ].
  intros [= <-]. split; [ discriminate | ]. apply (span_digits_isdigit t _ t' E). discriminate.
Qed.

Lemma video_id_at_digits (s d : string) : video_id_at s = Some d -> digit_run d.
Proof.
  unfold video_id_at. destruct (String.prefix "/video" s); [ | discriminate ].
  cbv zeta.
  destruct (if String.prefix "s/" _ then _ else None) as [d'|] eqn:E1.
  - intros [= <-]. destruct (String.prefix "s/" _); [ | discriminate ].
    eapply digits_attempt. exact E1.
  - destruct (String.prefix "/" _); [ | discriminate ]. apply digits_attempt.
Qed.

Lemma video_id_alt_at_digits (s d : string) : video_id_alt_at s = Some d -> digit_run d.
Proof.
  unfold video_id_alt_at. destruct (String.prefix "video" s); [ | discriminate ].
  cbv zeta. destruct (substring 5 (String.length s) s) as [|c t]; [ discriminate | ].
  destruct (Ascii.eqb c "_" || Ascii.eqb c "-").
  - match goal with |- match ?m with _ => _ end = _ -> _ => destruct m as [d'|] eqn:E1 end.
    + intros [= <-]. eapply digits_attempt. exact E1.
    + apply digits_attempt.
  - apply digits_attempt.
Qed.

Lemma digit_run_isdigit (d : string) : digit_run d -> isdigit d = true.
Proof.
  intros [Hne Hd]. destruct d as [|c w]; [ contradiction | ].
  apply digits_isdigit_chars, Hd.
Qed.

(** Whatever it is given, [extract_video_id] only ever returns a string
    that [str.isdigit] accepts: either the stripped input itself, which
    may hold the superscript digits U+00B2, U+00B3 and U+00B9, or a
    non-empty run of ASCII digits matched by [\d+] in the input. *)
Theorem extract_video_id_isdigit (url_or_id d : string) :
  extract_video_id url_or_id = Some d ->
  isdigit d = true /\ (d = strip url_or_id \/ digit_run d).
Proof.
  unfold extract_video_id. destruct (String.eqb url_or_id ""); [ discriminate | ].
  cbv zeta. destruct (isdigit (strip url_or_id)) eqn:E;
    [ intros [= <-]; split; [ exact E | left; reflexivity ] | ].
  intros H. assert (Hr : digit_run d).
  { destruct (search video_id_at _) as [d'|] eqn:E1.
    - injection H as <-. apply search_some in E1 as [t Ht]. eapply video_id_at_digits, Ht.
    - apply search_some in H as [t Ht]. eapply video_id_alt_at_digits, Ht. }
  split; [ apply digit_run_isdigit, Hr | right; exact Hr ].
Qed.

Lemma extract_video_id_isdigit_witness :
  extract_video_id "https://rule34video.com/video/3712/clip/" = Some "3712" /\
  isdigit "3712" = true /\
  ("3712" = strip "https://rule34video.com/video/3712/clip/" \/ digit_run "3712").
Proof.
  assert (H : extract_video_id "https://rule34video.com/video/3712/clip/" = Some "3712")
    by (vm_compute; reflexivity).
  split; [ exact H | apply (extract_video_id_isdigit _ _ H) ].
Defined.

Lemma take_digits_ok (n : nat) (s d t : string) :
  take_digits n s = Some (d, t) ->
  String.length d = n /\ forallb is_digit_char (list_ascii_of_string d) = true.
Proof.
  unfold take_digits.
  destruct ((String.length (substring 0 n s) =? n)%nat
            && forallb is_digit_char (list_ascii_of_string (substring 0 n s))) eqn:E;
    [ | discriminate ].
  intros [= <- _]. apply andb_prop in E as [E1 E2]. apply Nat.eqb_eq in E1. auto.
Qed.

Lemma quality_at_ok (tail : string -> bool) (s d : string) :
  quality_at tail s = Some d ->
  (String.length d = 3 \/ String.length d = 4)%nat
  /\ forallb is_digit_char (list_ascii_of_string d) = true.
Proof.
  unfold quality_at. destruct s as [|c r]; [ discriminate | ].
  destruct (is_sep c); [ | discriminate ].
  destruct (take_digits 4 r) as [[d4 t4]|] eqn:E4.
  - destruct (tail t4).
    + intros [= <-]. apply take_digits_ok in E4 as [H1 H2]. auto.
    + destruct (take_digits 3 r) as [[d3 t3]|] eqn:E3; [ | discriminate ].
      destruct (tail t3); [ | discriminate ].
      intros [= <-]. apply take_digits_ok in E3 as [H1 H2]. auto.
  - destruct (take_digits 3 r) as [[d3 t3]|] eqn:E3; [ | discriminate ].
    destruct (tail t3); [ | discriminate ].
    intros [= <-]. apply take_digits_ok in E3 as [H1 H2]. auto.
Qed.

(** The quality label read off a media URL is "default" or a run of
    three or four digits matched by [\d] (below U+0100: ASCII digits)
    followed by "p", a label that [normalize_quality] leaves unchanged. *)
Theorem extract_quality_from_url_shape (url : string) :
  extract_quality_from_url url = "default" \/
  exists d, extract_quality_from_url url = d ++ "p" /\
            (String.length d = 3 \/ String.length d = 4)%nat /\
            forallb is_digit_char (list_ascii_of_string d) = true /\ isdigit d = true /\
            normalize_quality (QStr (d ++ "p")) = Ok (d ++ "p").
Proof.
  assert (Hok : forall tail d, search_at (quality_at tail) url = Some d ->
            (String.length d = 3 \/ String.length d = 4)%nat /\
            forallb is_digit_char (list_ascii_of_string d) = true /\ isdigit d = true /\
            normalize_quality (QStr (d ++ "p")) = Ok (d ++ "p")).
  { intros tail d H. apply search_at_some in H as [t Ht]. apply quality_at_ok in Ht as [H1 H2].
    assert (Hne : d <> EmptyString) by (intros ->; simpl in H1; lia).
    split; [ exact H1 | split; [ exact H2 | split ] ].
    - apply digit_run_isdigit. split; assumption.
    - apply normalize_digits_p; assumption. }
  unfold extract_quality_from_url. destruct (String.eqb url ""); [ left; reflexivity | ].
  destruct (search_at (quality_at tail_mp4) url) as [r|] eqn:E1;
    [ right; exists r; split; [ reflexivity | apply (Hok _ _ E1) ] | ].
  destruct (search_at (quality_at tail_p_sep) url) as [r|] eqn:E2;
    [ right; exists r; split; [ reflexivity | apply (Hok _ _ E2) ] | ].
  destruct (search_at (quality_at tail_sep) url) as [r|] eqn:E3;
    [ right; exists r; split; [ reflexivity | apply (Hok _ _ E3) ] | ].
  left; reflexivity.
Qed.

End CleanProofs.
